(** * A shallow embedding of [src/bot.py]

    The file embeds the chess bot of [src/bot.py]: the material evaluator
    [Bot.evaluate_board], the alpha-beta search [Bot.minimax], the facade
    [Bot.next_move] and the probe [Bot.check_move_is_legal].

    The bot works on a [chess.Board] of the python-chess library, which is
    not part of the repository.  The search is therefore embedded over an
    interface ([Position]) that lists the operations the bot calls, and the
    general theorems assume only the library's contract.  Module [chess] is a
    model of the library for standard chess; it is the instance at which the
    concrete positions are evaluated. *)

From Stdlib Require Import ZArith List Bool String Ascii Lia.
Import ListNotations.
Local Open Scope Z_scope.

(** * Python values *)

(** The exceptions that the embedded code can raise.  [TypeError] and
    [AttributeError] are raised by the interpreter itself when [None] is
    subscripted, unpacked or asked for an attribute; [IndexError] is what
    [Board.pop] raises on an empty move stack; [InvalidMoveError] (a
    [ValueError]) is raised deliberately by [chess.Move.from_uci]. *)
Inductive exn : Type :=
| TypeError
| AttributeError
| IndexError
| InvalidMoveError.

Inductive result (A : Type) : Type :=
| Ok (a : A)
| Raise (e : exn).
Arguments Ok {A} a.
Arguments Raise {A} e.

(** An exception raised by the interpreter on a [None] operand, as opposed
    to one that the program or the library raises on purpose. *)
Definition uncontrolled (e : exn) : bool :=
  match e with
  | TypeError | AttributeError => true
  | IndexError | InvalidMoveError => false
  end.

(** Scores are Python numbers: the [int] that [evaluate_board] computes, and
    the two floats [float("-inf")] and [float("inf")] used as initial
    bounds.  Python compares an [int] with an infinite float by value. *)
Module Score.

Inductive t : Type :=
| NegInf
| Fin (z : Z)
| PosInf.

Definition ltb (x y : t) : bool :=
  match x, y with
  | NegInf, NegInf => false
  | NegInf, _ => true
  | Fin _, NegInf => false
  | Fin a, Fin b => a <? b
  | Fin _, PosInf => true
  | PosInf, _ => false
  end.

Definition leb (x y : t) : bool := negb (ltb y x).
Definition gtb (x y : t) : bool := ltb y x.

(** [max(a, b)] and [min(a, b)] return their first argument on a tie. *)
Definition max (a b : t) : t := if gtb b a then b else a.
Definition min (a b : t) : t := if ltb b a then b else a.

Definition is_finite (x : t) : bool :=
  match x with Fin _ => true | _ => false end.

End Score.

(** * The python-chess library *)

Module chess.

(** ** Value types *)

Definition Color := bool.
Definition WHITE : Color := true.
Definition BLACK : Color := false.

Inductive PieceType : Type := PAWN | KNIGHT | BISHOP | ROOK | QUEEN | KING.

Definition PieceType_eqb (p q : PieceType) : bool :=
  match p, q with
  | PAWN, PAWN | KNIGHT, KNIGHT | BISHOP, BISHOP
  | ROOK, ROOK | QUEEN, QUEEN | KING, KING => true
  | _, _ => false
  end.

(** Squares are numbered 0 (a1), 1 (b1), ... 63 (h8). *)
Definition Square := Z.
Definition square (file rank : Z) : Square := rank * 8 + file.
Definition square_file (sq : Square) : Z := Z.land sq 7.
Definition square_rank (sq : Square) : Z := Z.shiftr sq 3.

Record Move : Type := mkMove {
  from_square : Square;
  to_square : Square;
  promotion : option PieceType;
  drop : option PieceType
}.

Definition move (f t : Square) : Move := mkMove f t None None.
Definition null : Move := move 0 0.

Definition option_PieceType_eqb (p q : option PieceType) : bool :=
  match p, q with
  | None, None => true
  | Some a, Some b => PieceType_eqb a b
  | _, _ => false
  end.

Definition Move_eqb (m n : Move) : bool :=
  (from_square m =? from_square n) && (to_square m =? to_square n)
  && option_PieceType_eqb (promotion m) (promotion n)
  && option_PieceType_eqb (drop m) (drop n).

(** ** Move notation: [SQUARE_NAMES], [PIECE_SYMBOLS], [Move.uci] *)

Definition FILE_NAMES : list ascii :=
  ["a"; "b"; "c"; "d"; "e"; "f"; "g"; "h"]%char.
Definition RANK_NAMES : list ascii :=
  ["1"; "2"; "3"; "4"; "5"; "6"; "7"; "8"]%char.

(** [l.index(c)], with [None] for the [ValueError] of a missing element. *)
Fixpoint index_of (c : ascii) (l : list ascii) : option Z :=
  match l with
  | [] => None
  | x :: r => if Ascii.eqb x c then Some 0
              else option_map Z.succ (index_of c r)
  end.

Definition square_name (sq : Square) : string :=
  String (nth (Z.to_nat (square_file sq)) FILE_NAMES "?"%char)
    (String (nth (Z.to_nat (square_rank sq)) RANK_NAMES "?"%char) EmptyString).

Definition piece_symbol (p : PieceType) : ascii :=
  match p with
  | PAWN => "p" | KNIGHT => "n" | BISHOP => "b"
  | ROOK => "r" | QUEEN => "q" | KING => "k"
  end%char.

(** [PIECE_SYMBOLS.index(c)] for a one-character string [c]. *)
Definition piece_symbols_index (c : ascii) : option PieceType :=
  find (fun p => Ascii.eqb (piece_symbol p) c)
       [PAWN; KNIGHT; BISHOP; ROOK; QUEEN; KING].

Definition upper (c : ascii) : ascii :=
  let n := nat_of_ascii c in
  if ((97 <=? n) && (n <=? 122))%nat then ascii_of_nat (n - 32) else c.

(** The small letter of a capital letter A to Z. *)
Definition lower (c : ascii) : ascii :=
  let n := nat_of_ascii c in
  if ((65 <=? n) && (n <=? 90))%nat then ascii_of_nat (n + 32) else c.

Definition uci (m : Move) : string :=
  match drop m, promotion m with
  | Some d, _ =>
      String (upper (piece_symbol d)) (String "@"%char (square_name (to_square m)))
  | None, Some p =>
      (square_name (from_square m) ++ square_name (to_square m)
       ++ String (piece_symbol p) EmptyString)%string
  | None, None =>
      if (from_square m =? 0) && (to_square m =? 0) then "0000"%string
      else (square_name (from_square m) ++ square_name (to_square m))%string
  end.

(** ** Strings given to [Move.from_uci]

    A Python [str] that a caller passes in is the list of its code
    points.  [str] embeds the ASCII strings written in this file and those
    that [Move.uci] writes. *)

Definition pystr : Type := list N.

Definition ord (c : ascii) : N := N_of_ascii c.

Definition str (s : string) : pystr := map ord (list_ascii_of_string s).

(** [s == t] *)
Fixpoint pystr_eqb (s t : pystr) : bool :=
  match s, t with
  | [], [] => true
  | x :: s', y :: t' => N.eqb x y && pystr_eqb s' t'
  | _, _ => false
  end.

(** [l.index(c)] on code points. *)
Fixpoint code_index (c : N) (l : list N) : option Z :=
  match l with
  | [] => None
  | x :: r => if N.eqb x c then Some 0
              else option_map Z.succ (code_index c r)
  end.

(** [SQUARE_NAMES.index(f + r)] for a file character and a rank
    character. *)
Definition square_names_index (f r : N) : option Square :=
  match code_index f (map ord FILE_NAMES), code_index r (map ord RANK_NAMES) with
  | Some fi, Some ri => Some (square fi ri)
  | _, _ => None
  end.

(** [PIECE_SYMBOLS.index(c)] for a one-character string [c]. *)
Definition PIECE_SYMBOLS_index (c : N) : option PieceType :=
  find (fun p => N.eqb (ord (piece_symbol p)) c)
       [PAWN; KNIGHT; BISHOP; ROOK; QUEEN; KING].

(** [c.lower()] as far as the lookup in [PIECE_SYMBOLS] can tell: the
    capital letters A to Z become a to z and the Kelvin sign U+212A
    becomes k; the lower case of no other character is a small letter a
    to z. *)
Definition str_lower (c : N) : N :=
  (if (65 <=? c) && (c <=? 90) then c + 32
   else if c =? 8490 then 107
   else c)%N.

(** [Move.from_uci(uci)] *)
Definition from_uci (uci : pystr) : result Move :=
  let len := List.length uci in
  if pystr_eqb uci (str "0000") then Ok null
  else if (len =? 4)%nat
     && match nth_error uci 1 with
        | Some c => N.eqb c (ord "@")
        | None => false
        end then
    match nth_error uci 0, nth_error uci 2, nth_error uci 3 with
    | Some c0, Some f, Some r =>
        match PIECE_SYMBOLS_index (str_lower c0), square_names_index f r with
        | Some d, Some sq => Ok (mkMove sq sq None (Some d))
        | _, _ => Raise InvalidMoveError
        end
    | _, _, _ => Raise InvalidMoveError
    end
  else if ((4 <=? len) && (len <=? 5))%nat then
    match nth_error uci 0, nth_error uci 1, nth_error uci 2, nth_error uci 3 with
    | Some f1, Some r1, Some f2, Some r2 =>
        match square_names_index f1 r1, square_names_index f2 r2,
              (if (len =? 5)%nat
               then match nth_error uci 4 with
                    | Some c => option_map Some (PIECE_SYMBOLS_index c)
                    | None => None
                    end
               else Some None) with
        | Some f, Some t, Some promo =>
            if f =? t then Raise InvalidMoveError
            else Ok (mkMove f t promo None)
        | _, _, _ => Raise InvalidMoveError
        end
    | _, _, _, _ => Raise InvalidMoveError
    end
  else Raise InvalidMoveError.

(** ** The board

    python-chess keeps the position in bitboards; the model keeps one
    entry per square.  Sets of squares are lists, and every enumeration
    runs from h8 down to a1, which is the order of [scan_reversed]. *)

Record Piece : Type := mkPiece { piece_type : PieceType; color : Color }.

Definition Piece_eqb (p q : Piece) : bool :=
  PieceType_eqb (piece_type p) (piece_type q) && Bool.eqb (color p) (color q).

Definition Placement := list (option Piece).

(** The fields that [Board._board_state] saves and [Board.pop] restores.
    [castling_rights] lists the squares of the rooks that may still
    castle, highest square first. *)
Record BoardState : Type := mkState {
  placement : Placement;
  turn : Color;
  castling_rights : list Square;
  ep_square : option Square;
  halfmove_clock : Z;
  fullmove_number : Z
}.

(** A board is its current state with [move_stack] and [_stack], the most
    recent entry first. *)
Record Board : Type := mkBoard {
  state : BoardState;
  move_stack : list Move;
  stack : list BoardState
}.

Definition SQUARES_REVERSED : list Square :=
  map Z.of_nat (rev (seq 0 64)).

Definition mem (sq : Square) (l : list Square) : bool :=
  existsb (Z.eqb sq) l.

Definition piece_on (pl : Placement) (sq : Square) : option Piece :=
  if (0 <=? sq) && (sq <? 64) then nth (Z.to_nat sq) pl None else None.

Fixpoint set_nth {A : Type} (n : nat) (x : A) (l : list A) : list A :=
  match l, n with
  | [], _ => []
  | _ :: t, O => x :: t
  | h :: t, S k => h :: set_nth k x t
  end.

Definition set_piece (pl : Placement) (sq : Square) (p : option Piece)
  : Placement :=
  if (0 <=? sq) && (sq <? 64) then set_nth (Z.to_nat sq) p pl else pl.

Definition is_piece (pl : Placement) (t : PieceType) (c : Color)
    (sq : Square) : bool :=
  match piece_on pl sq with
  | Some p => PieceType_eqb (piece_type p) t && Bool.eqb (color p) c
  | None => false
  end.

Definition occupied_co (pl : Placement) (c : Color) (sq : Square) : bool :=
  match piece_on pl sq with
  | Some p => Bool.eqb (color p) c
  | None => false
  end.

Definition occupied (pl : Placement) (sq : Square) : bool :=
  match piece_on pl sq with Some _ => true | None => false end.

Definition type_on (pl : Placement) (t : PieceType) (sq : Square) : bool :=
  match piece_on pl sq with
  | Some p => PieceType_eqb (piece_type p) t
  | None => false
  end.

(** [Board.pieces(piece_type, color)] *)
Definition pieces_of (pl : Placement) (t : PieceType) (c : Color)
  : list Square :=
  filter (is_piece pl t c) (rev SQUARES_REVERSED).

(** ** Attacks *)

Definition on_board (f r : Z) : bool :=
  (0 <=? f) && (f <? 8) && (0 <=? r) && (r <? 8).

Definition steps (sq : Square) (deltas : list (Z * Z)) : list Square :=
  flat_map (fun d =>
              let f := square_file sq + fst d in
              let r := square_rank sq + snd d in
              if on_board f r then [square f r] else [])
           deltas.

(** The squares met from ([f], [r]) in direction ([df], [dr]), up to and
    including the first occupied one. *)
Fixpoint slide (pl : Placement) (fuel : nat) (f r df dr : Z) : list Square :=
  match fuel with
  | O => []
  | S n =>
      let f' := f + df in
      let r' := r + dr in
      if on_board f' r' then
        if occupied pl (square f' r') then [square f' r']
        else square f' r' :: slide pl n f' r' df dr
      else []
  end.

Definition slides (pl : Placement) (sq : Square) (dirs : list (Z * Z))
  : list Square :=
  flat_map (fun d => slide pl 7 (square_file sq) (square_rank sq) (fst d) (snd d))
           dirs.

Definition KNIGHT_DELTAS : list (Z * Z) :=
  [(1, 2); (2, 1); (2, -1); (1, -2); (-1, -2); (-2, -1); (-2, 1); (-1, 2)].
Definition KING_DELTAS : list (Z * Z) :=
  [(0, 1); (1, 1); (1, 0); (1, -1); (0, -1); (-1, -1); (-1, 0); (-1, 1)].
Definition DIAG_DIRS : list (Z * Z) := [(1, 1); (1, -1); (-1, -1); (-1, 1)].
Definition LINE_DIRS : list (Z * Z) := [(0, 1); (1, 0); (0, -1); (-1, 0)].

Definition pawn_attacks (c : Color) (sq : Square) : list Square :=
  steps sq (if c then [(-1, 1); (1, 1)] else [(-1, -1); (1, -1)]).

(** [Board.attacks_mask(square)] *)
Definition attacks (pl : Placement) (sq : Square) : list Square :=
  match piece_on pl sq with
  | None => []
  | Some p =>
      match piece_type p with
      | PAWN => pawn_attacks (color p) sq
      | KNIGHT => steps sq KNIGHT_DELTAS
      | KING => steps sq KING_DELTAS
      | BISHOP => slides pl sq DIAG_DIRS
      | ROOK => slides pl sq LINE_DIRS
      | QUEEN => slides pl sq DIAG_DIRS ++ slides pl sq LINE_DIRS
      end
  end.

(** [Board.is_attacked_by(color, square)] *)
Definition is_attacked_by (pl : Placement) (c : Color) (sq : Square) : bool :=
  existsb (fun s => if occupied_co pl c s then mem sq (attacks pl s) else false)
          SQUARES_REVERSED.

(** [Board.king(color)] *)
Definition king (pl : Placement) (c : Color) : option Square :=
  find (is_piece pl KING c) SQUARES_REVERSED.

Definition is_check (st : BoardState) : bool :=
  match king (placement st) (turn st) with
  | Some k => is_attacked_by (placement st) (negb (turn st)) k
  | None => false
  end.

(** ** Castling rights and [Board.push] *)

Definition A1 : Square := 0.
Definition C1 : Square := 2.
Definition D1 : Square := 3.
Definition E1 : Square := 4.
Definition F1 : Square := 5.
Definition G1 : Square := 6.
Definition H1 : Square := 7.
Definition A8 : Square := 56.
Definition C8 : Square := 58.
Definition D8 : Square := 59.
Definition E8 : Square := 60.
Definition F8 : Square := 61.
Definition G8 : Square := 62.
Definition H8 : Square := 63.

(** [Board.clean_castling_rights()] for standard chess.  python-chess
    skips the filter once a move has been pushed, because [push] stores
    cleaned rights; the filter is idempotent. *)
Definition clean_castling_rights (st : BoardState) : list Square :=
  let pl := placement st in
  filter (fun sq =>
            mem sq (castling_rights st)
            && ((is_piece pl ROOK WHITE sq && ((sq =? A1) || (sq =? H1))
                 && is_piece pl KING WHITE E1)
                || (is_piece pl ROOK BLACK sq && ((sq =? A8) || (sq =? H8))
                    && is_piece pl KING BLACK E8)))
         SQUARES_REVERSED.

(** [Board._to_chess960(move)]: castling is stored as king takes rook. *)
Definition to_chess960 (pl : Placement) (m : Move) : Move :=
  if (from_square m =? E1) && type_on pl KING E1 then
    if (to_square m =? G1) && negb (type_on pl ROOK G1) then move E1 H1
    else if (to_square m =? C1) && negb (type_on pl ROOK C1) then move E1 A1
    else m
  else if (from_square m =? E8) && type_on pl KING E8 then
    if (to_square m =? G8) && negb (type_on pl ROOK G8) then move E8 H8
    else if (to_square m =? C8) && negb (type_on pl ROOK C8) then move E8 A8
    else m
  else m.

(** [Board._from_chess960(False, from_square, to_square)] *)
Definition from_chess960 (pl : Placement) (f t : Square) : Move :=
  if (f =? E1) && type_on pl KING E1 then
    if t =? H1 then move E1 G1
    else if t =? A1 then move E1 C1
    else move f t
  else if (f =? E8) && type_on pl KING E8 then
    if t =? H8 then move E8 G8
    else if t =? A8 then move E8 C8
    else move f t
  else move f t.

(** [Board.is_zeroing(move)] *)
Definition is_zeroing (st : BoardState) (m : Move) : bool :=
  let pl := placement st in
  let f := from_square m in
  let t := to_square m in
  (negb (f =? t)
   && (type_on pl PAWN f || type_on pl PAWN t
       || occupied_co pl (negb (turn st)) f
       || occupied_co pl (negb (turn st)) t))
  || option_PieceType_eqb (drop m) (Some PAWN).

Definition not_on_rank (r : Z) (l : list Square) : list Square :=
  filter (fun sq => negb (square_rank sq =? r)) l.

(** The state after [Board.push(move)].  python-chess asserts that a
    piece stands on the origin square; where none does the model leaves the
    state as it is. *)
Definition push_state (st : BoardState) (m0 : Move) : BoardState :=
  let pl := placement st in
  let c := turn st in
  let m := to_chess960 pl m0 in
  let rights := clean_castling_rights st in
  let halfmove := halfmove_clock st + 1 in
  let fullmove := if c then fullmove_number st else fullmove_number st + 1 in
  if Move_eqb m null then mkState pl (negb c) rights None halfmove fullmove
  else
    match drop m with
    | Some d =>
        mkState (set_piece pl (to_square m) (Some (mkPiece d c)))
                (negb c) rights None halfmove fullmove
    | None =>
        let halfmove := if is_zeroing st m then 0 else halfmove in
        let f := from_square m in
        let t := to_square m in
        match piece_on pl f with
        | None => st
        | Some p =>
            let pt := piece_type p in
            let pl := set_piece pl f None in
            let captured := piece_on pl t in
            let rights := filter (fun r => negb (r =? t) && negb (r =? f)) rights in
            let rights :=
              if PieceType_eqb pt KING then not_on_rank (if c then 0 else 7) rights
              else if type_on pl KING t then
                if c && (square_rank t =? 7) then not_on_rank 7 rights
                else if negb c && (square_rank t =? 0) then not_on_rank 0 rights
                else rights
              else rights in
            let diff := t - f in
            let en_passant :=
              PieceType_eqb pt PAWN
              && match ep_square st with Some e => t =? e | None => false end
              && ((Z.abs diff =? 7) || (Z.abs diff =? 9))
              && match captured with None => true | Some _ => false end in
            let ep :=
              if PieceType_eqb pt PAWN && (diff =? 16) && (square_rank f =? 1)
              then Some (f + 8)
              else if PieceType_eqb pt PAWN && (diff =? -16) && (square_rank f =? 6)
              then Some (f - 8)
              else None in
            let pl :=
              if en_passant && match ep with None => true | Some _ => false end
              then set_piece pl (t + (if c then -8 else 8)) None
              else pl in
            let pt := match promotion m with Some q => q | None => pt end in
            let castling := PieceType_eqb pt KING && occupied_co pl c t in
            let pl :=
              if castling then
                let pl := set_piece (set_piece pl f None) t None in
                if square_file t <? square_file f then
                  set_piece (set_piece pl (if c then C1 else C8) (Some (mkPiece KING c)))
                            (if c then D1 else D8) (Some (mkPiece ROOK c))
                else
                  set_piece (set_piece pl (if c then G1 else G8) (Some (mkPiece KING c)))
                            (if c then F1 else F8) (Some (mkPiece ROOK c))
              else set_piece pl t (Some (mkPiece pt c)) in
            mkState pl (negb c) rights ep halfmove fullmove
        end
    end.

(** ** Move generation, in the order of
    [Board.generate_pseudo_legal_moves] and [Board.generate_legal_moves] *)

Definition promotions_or_plain (f t : Square) : list Move :=
  if (square_rank t =? 0) || (square_rank t =? 7) then
    [mkMove f t (Some QUEEN) None; mkMove f t (Some ROOK) None;
     mkMove f t (Some BISHOP) None; mkMove f t (Some KNIGHT) None]
  else [move f t].

(** Moves of the pieces that are not pawns; [kings_too] is false for the
    [from_mask] that excludes kings. *)
Definition piece_moves (st : BoardState) (kings_too : bool) : list Move :=
  let pl := placement st in
  let c := turn st in
  flat_map (fun f =>
              if occupied_co pl c f && negb (type_on pl PAWN f)
                 && (kings_too || negb (type_on pl KING f)) then
                let targets := attacks pl f in
                map (move f)
                    (filter (fun t => mem t targets && negb (occupied_co pl c t))
                            SQUARES_REVERSED)
              else [])
           SQUARES_REVERSED.

(** The squares strictly between two squares of one rank. *)
Definition between_on_rank (a b : Square) : list Square :=
  filter (fun sq => (Z.min a b <? sq) && (sq <? Z.max a b)) SQUARES_REVERSED.

(** [Board.generate_castling_moves()] *)
Definition castling_moves (st : BoardState) : list Move :=
  let pl := placement st in
  let c := turn st in
  let backrank := if c then 0 else 7 in
  match find (fun sq => is_piece pl KING c sq && (square_rank sq =? backrank))
             (rev SQUARES_REVERSED) with
  | None => []
  | Some k =>
      flat_map (fun rook =>
                  if square_rank rook =? backrank then
                    let a_side := rook <? k in
                    let king_to := square (if a_side then 2 else 6) backrank in
                    let rook_to := square (if a_side then 3 else 5) backrank in
                    let king_path := between_on_rank k king_to in
                    let rook_path := between_on_rank rook rook_to in
                    let without_king := set_piece pl k None in
                    let without_both := set_piece without_king rook None in
                    let rook_moved :=
                      set_piece without_both rook_to (Some (mkPiece ROOK c)) in
                    if existsb (occupied without_both)
                               (king_path ++ rook_path ++ [king_to; rook_to])
                       || existsb (is_attacked_by without_king (negb c))
                                  (king_path ++ [k])
                       || is_attacked_by rook_moved (negb c) king_to
                    then []
                    else [from_chess960 pl k rook]
                  else [])
               (clean_castling_rights st)
  end.

Definition pawn_captures (st : BoardState) : list Move :=
  let pl := placement st in
  let c := turn st in
  flat_map (fun f =>
              if is_piece pl PAWN c f then
                let targets := pawn_attacks c f in
                flat_map (promotions_or_plain f)
                         (filter (fun t => mem t targets && occupied_co pl (negb c) t)
                                 SQUARES_REVERSED)
              else [])
           SQUARES_REVERSED.

Definition forward (c : Color) : Z := if c then 8 else -8.

Definition single_moves (st : BoardState) : list Square :=
  let pl := placement st in
  let c := turn st in
  filter (fun t => is_piece pl PAWN c (t - forward c) && negb (occupied pl t))
         SQUARES_REVERSED.

Definition double_moves (st : BoardState) : list Square :=
  let pl := placement st in
  let c := turn st in
  let singles := single_moves st in
  filter (fun t =>
            mem (t - forward c) singles && negb (occupied pl t)
            && (if c then (square_rank t =? 2) || (square_rank t =? 3)
                else (square_rank t =? 5) || (square_rank t =? 4)))
         SQUARES_REVERSED.

(** [Board.generate_pseudo_legal_ep()] *)
Definition pseudo_legal_ep (st : BoardState) : list Move :=
  let pl := placement st in
  let c := turn st in
  match ep_square st with
  | None => []
  | Some ep =>
      if occupied pl ep then []
      else
        map (fun f => move f ep)
            (filter (fun f =>
                       is_piece pl PAWN c f
                       && mem f (pawn_attacks (negb c) ep)
                       && (square_rank f =? (if c then 4 else 3)))
                    SQUARES_REVERSED)
  end.

Definition pseudo_legal_moves (st : BoardState) (kings_too : bool)
  : list Move :=
  let c := turn st in
  piece_moves st kings_too
  ++ (if kings_too then castling_moves st else [])
  ++ pawn_captures st
  ++ flat_map (fun t => promotions_or_plain (t - forward c) t) (single_moves st)
  ++ map (fun t => move (t - 2 * forward c) t) (double_moves st)
  ++ pseudo_legal_ep st.

(** [Board.is_castling(move)] *)
Definition is_castling (st : BoardState) (m : Move) : bool :=
  let pl := placement st in
  type_on pl KING (from_square m)
  && ((1 <? Z.abs (square_file (from_square m) - square_file (to_square m)))
      || is_piece pl ROOK (turn st) (to_square m)).

(** A move is safe when it does not leave the mover's king attacked.
    python-chess decides this from pins and rays ([Board._is_safe]); the
    model plays the move and looks. *)
Definition is_safe (st : BoardState) (m : Move) : bool :=
  if is_castling st m then true
  else
    let pl := placement (push_state st m) in
    match king pl (turn st) with
    | Some k => negb (is_attacked_by pl (negb (turn st)) k)
    | None => true
    end.

(** The king's steps out of a check, first in [Board._generate_evasions]. *)
Definition king_evasions (st : BoardState) (k : Square) : list Move :=
  let pl := placement st in
  let targets := steps k KING_DELTAS in
  map (move k)
      (filter (fun t => mem t targets && negb (occupied_co pl (turn st) t))
              SQUARES_REVERSED).

(** [list(Board.generate_legal_moves())] *)
Definition generate_legal_moves (st : BoardState) : list Move :=
  let pl := placement st in
  let c := turn st in
  match king pl c with
  | None => pseudo_legal_moves st true
  | Some k =>
      if is_attacked_by pl (negb c) k then
        filter (is_safe st) (king_evasions st k ++ pseudo_legal_moves st false)
      else filter (is_safe st) (pseudo_legal_moves st true)
  end.

(** ** [move in board.legal_moves], that is [Board.is_legal(move)] *)

(** [Board.is_pseudo_legal(move)].  The pawn case looks the move up among
    the pseudo-legal moves; python-chess generates them with masks for
    the two squares of the move, which leave out only other moves. *)
Definition is_pseudo_legal (st : BoardState) (m : Move) : bool :=
  let pl := placement st in
  let c := turn st in
  if Move_eqb m null then false
  else
    match drop m with
    | Some _ => false
    | None =>
        match piece_on pl (from_square m) with
        | None => false
        | Some p =>
            if negb (occupied_co pl c (from_square m)) then false
            else if match promotion m with
                    | Some _ =>
                        if negb (PieceType_eqb (piece_type p) PAWN) then true
                        else if c then negb (square_rank (to_square m) =? 7)
                        else negb (square_rank (to_square m) =? 0)
                    | None => false
                    end then false
            else if (if PieceType_eqb (piece_type p) KING
                     then existsb (Move_eqb (from_chess960 pl (from_square m)
                                                          (to_square m)))
                                  (castling_moves st)
                     else false) then true
            else if occupied_co pl c (to_square m) then false
            else if PieceType_eqb (piece_type p) PAWN
                 then existsb (Move_eqb m) (pseudo_legal_moves st true)
            else mem (to_square m) (attacks pl (from_square m))
        end
    end.

(** [Board.is_into_check(move)], for a pseudo-legal move.  python-chess
    decides it from the evasions of a check, pins and rays; the model
    plays the move and looks, as [is_safe] does. *)
Definition is_into_check (st : BoardState) (m : Move) : bool :=
  match king (placement st) (turn st) with
  | None => false
  | Some _ => negb (is_safe st m)
  end.

(** ** The end of the game: [Board.is_game_over()], that is
    [Board.outcome() is not None] *)

Definition no_legal_moves (st : BoardState) : bool :=
  match generate_legal_moves st with [] => true | _ :: _ => false end.

Definition is_checkmate (st : BoardState) : bool :=
  if is_check st then no_legal_moves st else false.

Definition is_stalemate (st : BoardState) : bool :=
  if is_check st then false else no_legal_moves st.

Definition is_light (sq : Square) : bool :=
  Z.odd (square_file sq + square_rank sq).

Definition any_square (p : Square -> bool) : bool :=
  existsb p SQUARES_REVERSED.

(** [Board.has_insufficient_material(color)] *)
Definition has_insufficient_material (pl : Placement) (c : Color) : bool :=
  if any_square (fun sq => is_piece pl PAWN c sq || is_piece pl ROOK c sq
                           || is_piece pl QUEEN c sq) then false
  else if any_square (is_piece pl KNIGHT c) then
    (List.length (filter (occupied_co pl c) SQUARES_REVERSED) <=? 2)%nat
    && negb (any_square (fun sq => occupied_co pl (negb c) sq
                                   && negb (type_on pl KING sq)
                                   && negb (type_on pl QUEEN sq)))
  else if any_square (is_piece pl BISHOP c) then
    (negb (any_square (fun sq => type_on pl BISHOP sq && negb (is_light sq)))
     || negb (any_square (fun sq => type_on pl BISHOP sq && is_light sq)))
    && negb (any_square (type_on pl PAWN))
    && negb (any_square (type_on pl KNIGHT))
  else true.

Definition is_insufficient_material (st : BoardState) : bool :=
  if has_insufficient_material (placement st) WHITE
  then has_insufficient_material (placement st) BLACK
  else false.

Definition is_seventyfive_moves (st : BoardState) : bool :=
  if 150 <=? halfmove_clock st then negb (no_legal_moves st) else false.

Definition has_legal_en_passant (st : BoardState) : bool :=
  match ep_square st with
  | None => false
  | Some _ => existsb (is_safe st) (pseudo_legal_ep st)
  end.

(** [Board._reduces_castling_rights(move)] *)
Definition reduces_castling_rights (st : BoardState) (m : Move) : bool :=
  let pl := placement st in
  let cr := clean_castling_rights st in
  let touched sq :=
    negb (from_square m =? to_square m)
    && ((sq =? from_square m) || (sq =? to_square m)) in
  existsb touched cr
  || (existsb (fun sq => square_rank sq =? 0) cr
      && any_square (fun sq => touched sq && is_piece pl KING WHITE sq))
  || (existsb (fun sq => square_rank sq =? 7) cr
      && any_square (fun sq => touched sq && is_piece pl KING BLACK sq)).

Definition is_irreversible (st : BoardState) (m : Move) : bool :=
  if is_zeroing st m then true
  else if reduces_castling_rights st m then true
  else has_legal_en_passant st.

Definition option_Piece_eqb (p q : option Piece) : bool :=
  match p, q with
  | None, None => true
  | Some a, Some b => Piece_eqb a b
  | _, _ => false
  end.

Fixpoint list_eqb {A : Type} (eqb : A -> A -> bool) (l r : list A) : bool :=
  match l, r with
  | [], [] => true
  | x :: l', y :: r' => eqb x y && list_eqb eqb l' r'
  | _, _ => false
  end.

(** Equality of [Board._transposition_key()] in two states. *)
Definition same_transposition (s1 s2 : BoardState) : bool :=
  list_eqb option_Piece_eqb (placement s1) (placement s2)
  && Bool.eqb (turn s1) (turn s2)
  && list_eqb Z.eqb (clean_castling_rights s1) (clean_castling_rights s2)
  && match (if has_legal_en_passant s1 then ep_square s1 else None),
           (if has_legal_en_passant s2 then ep_square s2 else None) with
     | None, None => true
     | Some a, Some b => a =? b
     | _, _ => false
     end.

(** The replay loop of [Board.is_repetition(count)]: [moves] and [states]
    are what is left of [move_stack] and [_stack]. *)
Fixpoint repetition_replay (now : BoardState) (count : nat)
    (moves : list Move) (states : list BoardState) : bool :=
  if (count <=? 1)%nat then true
  else
    match moves, states with
    | m :: ms, s :: ss =>
        if (List.length moves <? count - 1)%nat then false
        else if is_irreversible s m then false
        else if same_transposition s now
             then repetition_replay now (count - 1) ms ss
             else repetition_replay now count ms ss
    | _, _ => false
    end.

Definition is_fivefold_repetition (b : Board) : bool :=
  repetition_replay (state b) 5 (move_stack b) (stack b).

(** The tests of [Board.outcome()], in its order. *)
Definition is_game_over (b : Board) : bool :=
  if is_checkmate (state b) then true
  else if is_insufficient_material (state b) then true
  else if no_legal_moves (state b) then true
  else if is_seventyfive_moves (state b) then true
  else is_fivefold_repetition b.

(** ** The operations of [chess.Board] that the bot calls *)

Definition legal_moves (b : Board) : list Move := generate_legal_moves (state b).

Definition push (b : Board) (m : Move) : Board :=
  mkBoard (push_state (state b) m) (m :: move_stack b) (state b :: stack b).

(** [Board.pop()] restores the saved state; [None] stands for the
    [IndexError] of an empty move stack. *)
Definition pop (b : Board) : option Board :=
  match move_stack b, stack b with
  | _ :: ms, s :: ss => Some (mkBoard s ms ss)
  | _, _ => None
  end.

Definition pieces (b : Board) (t : PieceType) (c : Color) : list Square :=
  pieces_of (placement (state b)) t c.

(** [Board.is_legal(move)], the answer of [move in board.legal_moves]. *)
Definition is_legal (b : Board) (m : Move) : bool :=
  if is_pseudo_legal (state b) m then negb (is_into_check (state b) m)
  else false.

(** ** Setting up a board from the fields of a FEN *)

Definition is_upper (c : ascii) : bool :=
  let n := nat_of_ascii c in ((65 <=? n) && (n <=? 90))%nat.

Definition piece_of_symbol (c : ascii) : option Piece :=
  option_map (fun t => mkPiece t (is_upper c)) (piece_symbols_index (lower c)).

(** The piece placement field: rank 8 comes first, [row] is the rank
    being read and [above] the ranks already read. *)
Fixpoint parse_board_fen (s : string) (row above : Placement) : Placement :=
  match s with
  | EmptyString => row ++ above
  | String c r =>
      if Ascii.eqb c "/" then parse_board_fen r [] (row ++ above)
      else
        match index_of c RANK_NAMES with
        | Some n => parse_board_fen r (row ++ repeat None (Z.to_nat (n + 1))) above
        | None => parse_board_fen r (row ++ [piece_of_symbol c]) above
        end
  end.

Definition board_of_fen (board_fen : string) (to_move : Color)
    (castling : list Square) (ep : option Square) (halfmove fullmove : Z)
  : Board :=
  mkBoard (mkState (parse_board_fen board_fen [] []) to_move castling ep
                   halfmove fullmove) [] [].

(** [chess.Board()], which [Bot.__init__] builds when no FEN is given:
    rnbqkbnr/pppppppp/8/8/8/8/PPPPPPPP/RNBQKBNR w KQkq - 0 1 *)
Definition starting_board : Board :=
  board_of_fen "rnbqkbnr/pppppppp/8/8/8/8/PPPPPPPP/RNBQKBNR" WHITE
               [H8; A8; H1; A1] None 0 1.

End chess.

(** * The position interface

    What the bot asks of the board object it is given: the legal moves in
    the board's enumeration order, [push] and [pop], the end-of-game test,
    the squares holding a kind of piece, and the side to move.  [pop]
    returns [None] where python-chess raises [IndexError]. *)
Class Position (Board : Type) : Type := {
  legal_moves : Board -> list chess.Move;
  push : Board -> chess.Move -> Board;
  pop : Board -> option Board;
  is_game_over : Board -> bool;
  pieces : Board -> chess.PieceType -> chess.Color -> list chess.Square;
  turn : Board -> chess.Color
}.

(** The contract of the library that the theorems rely on: [pop] undoes
    the latest [push] exactly, and a board without a legal move is a
    finished game (checkmate or stalemate). *)
Definition undo_exact (Board : Type) `{Position Board} : Prop :=
  forall (b : Board) (m : chess.Move), pop (push b m) = Some b.

Definition no_moves_is_game_over (Board : Type) `{Position Board} : Prop :=
  forall b : Board, legal_moves b = [] -> is_game_over b = true.

(** [move in board.legal_moves]: the generator of legal moves answers
    the membership test itself (python-chess with [Board.is_legal]), it
    does not compare the move with the moves it enumerates. *)
Class LegalMoveTest (Board : Type) : Type := {
  is_legal : Board -> chess.Move -> bool
}.

(** Two more points of the library's contract: the membership test
    accepts every move of the enumeration, and it accepts neither the
    null move nor a drop. *)
Definition accepts_enumerated (Board : Type) `{Position Board}
    `{LegalMoveTest Board} : Prop :=
  forall (b : Board) (m : chess.Move),
    In m (legal_moves b) -> is_legal b m = true.

Definition accepts_no_null_no_drop (Board : Type) `{LegalMoveTest Board}
  : Prop :=
  forall (b : Board) (m : chess.Move),
    is_legal b m = true -> m <> chess.null /\ chess.drop m = None.

(** python-chess as an instance. *)
#[export] Instance chess_Position : Position chess.Board := {
  legal_moves := chess.legal_moves;
  push := chess.push;
  pop := chess.pop;
  is_game_over := chess.is_game_over;
  pieces := chess.pieces;
  turn := fun b => chess.turn (chess.state b)
}.

#[export] Instance chess_LegalMoveTest : LegalMoveTest chess.Board := {
  is_legal := chess.is_legal
}.

(** * Computations on the one mutable board

    A method of [Bot] runs against the board object it shares with its
    caller: it may mutate the board, and it ends with a value or with an
    exception. *)
Definition M (Board A : Type) : Type := Board -> Board * result A.

Definition ret {Board A : Type} (a : A) : M Board A :=
  fun b => (b, Ok a).

Definition raise {Board A : Type} (e : exn) : M Board A :=
  fun b => (b, Raise e).

Definition bind {Board A B : Type} (c : M Board A) (k : A -> M Board B)
  : M Board B :=
  fun b =>
    match c b with
    | (b', Ok a) => k a b'
    | (b', Raise e) => (b', Raise e)
    end.

Notation "x <- c ;; k" := (bind c (fun x => k))
  (at level 61, c at next level, right associativity).
Notation "c ;; k" := (bind c (fun _ => k))
  (at level 61, right associativity).

(** What [Bot.minimax] hands back: the pair [(best_move, score)], or
    [None] when the function ends without reaching a [return]. *)
Inductive pyvalue : Type :=
| PyNone
| PyTuple (best_move : option chess.Move) (score : Score.t).

Section Bot.

Context {Board : Type} `{Position Board}.

Definition board_push (m : chess.Move) : M Board unit :=
  fun b => (push b m, Ok tt).

Definition board_pop : M Board unit :=
  fun b =>
    match pop b with
    | Some b' => (b', Ok tt)
    | None => (b, Raise IndexError)
    end.

(** [v[1]] *)
Definition subscript_1 (v : pyvalue) : M Board Score.t :=
  match v with
  | PyTuple _ score => ret score
  | PyNone => raise TypeError
  end.

(** ** [Bot.evaluate_board] *)

Definition piece_values : list (chess.PieceType * Z) :=
  [(chess.PAWN, 1); (chess.KNIGHT, 3); (chess.BISHOP, 3);
   (chess.ROOK, 5); (chess.QUEEN, 9); (chess.KING, 0)].

Definition evaluate_board (board : Board) : Z :=
  fold_left
    (fun value item =>
       let piece := fst item in
       let piece_value := snd item in
       let value :=
         value + Z.of_nat (List.length (pieces board piece chess.WHITE)) * piece_value in
       let value :=
         value - Z.of_nat (List.length (pieces board piece chess.BLACK)) * piece_value in
       value)
    piece_values 0.

(** ** [Bot.minimax]

    [rec] is the recursive call at [depth - 1].  The list [moves] is
    [board.legal_moves] as the loop is entered: the generator behind it
    is resumed only after [board.pop()] has put the board back, so it
    yields the moves of the board at the node. *)

(** The maximizing branch.  The [return] of line 105 is inside the loop
    body, so the body runs for the first move only: it ends the call
    either with that [return] or, after [break], by leaving the function
    without a value.  [alph] is assigned and never read. *)
Definition maximizing (rec : Score.t -> Score.t -> bool -> M Board pyvalue)
    (moves : list chess.Move) (alpha beta : Score.t) : M Board pyvalue :=
  let max_eval := Score.NegInf in
  let best_move : option chess.Move := None in
  match moves with
  | [] => ret PyNone
  | move :: _ =>
      board_push move ;;
      r <- rec alpha beta false ;;
      cur_eval <- subscript_1 r ;;
      board_pop ;;
      let best :=
        if Score.gtb cur_eval max_eval then (cur_eval, Some move)
        else (max_eval, best_move) in
      let max_eval := fst best in
      let best_move := snd best in
      let alph := Score.max alpha cur_eval in
      if Score.leb beta alpha then ret PyNone
      else ret (PyTuple best_move max_eval)
  end.

(** The minimizing branch: the loop over all moves, left early by
    [break]; the [return] follows the loop. *)
Fixpoint minimizing (rec : Score.t -> Score.t -> bool -> M Board pyvalue)
    (moves : list chess.Move) (alpha beta : Score.t)
    (min_eval : Score.t) (best_move : option chess.Move)
  : M Board pyvalue :=
  match moves with
  | [] => ret (PyTuple best_move min_eval)
  | move :: rest =>
      board_push move ;;
      r <- rec alpha beta true ;;
      cur_eval <- subscript_1 r ;;
      board_pop ;;
      let best :=
        if Score.ltb cur_eval min_eval then (cur_eval, Some move)
        else (min_eval, best_move) in
      let min_eval := fst best in
      let best_move := snd best in
      let beta := Score.min beta cur_eval in
      if Score.leb beta alpha then ret (PyTuple best_move min_eval)
      else minimizing rec rest alpha beta min_eval best_move
  end.

(** [depth] counts the plies that remain; it is a natural number here,
    as the search is only started with a depth of at least zero. *)
Fixpoint minimax (depth : nat) (alpha beta : Score.t) (is_maximizing : bool)
  : M Board pyvalue :=
  fun board =>
    match depth with
    | O => (board, Ok (PyTuple None (Score.Fin (evaluate_board board))))
    | S depth' =>
        if is_game_over board then
          (board, Ok (PyTuple None (Score.Fin (evaluate_board board))))
        else if is_maximizing then
          maximizing (minimax depth') (legal_moves board) alpha beta board
        else
          minimizing (minimax depth') (legal_moves board) alpha beta
                     Score.PosInf None board
    end.

(** ** [Bot.next_move]

    Unpacking [None] raises [TypeError]; [None.uci()] raises
    [AttributeError]. *)
Definition next_move : M Board string :=
  let max_depth := 4%nat in
  r <- minimax max_depth Score.NegInf Score.PosInf true ;;
  match r with
  | PyNone => raise TypeError
  | PyTuple None _ => raise AttributeError
  | PyTuple (Some move) _ => ret (chess.uci move)
  end.

(** ** [Bot.check_move_is_legal]

    The two strings are concatenated and parsed; an exception of the
    parser leaves the method.  [in self.board.legal_moves] is the
    membership test of the board. *)
Definition check_move_is_legal `{LegalMoveTest Board}
    (initial_position new_position : chess.pystr) : M Board bool :=
  match chess.from_uci (initial_position ++ new_position) with
  | Raise e => raise e
  | Ok move => fun board => (board, Ok (is_legal board move))
  end.

End Bot.

(** * Reference definitions, written from the specification *)

Section Reference.

Context {Board : Type} `{Position Board}.

(** The value table of section 4.2 and the material balance it defines:
    the sum over the piece types of (White count - Black count) * value. *)
Definition piece_value (t : chess.PieceType) : Z :=
  match t with
  | chess.PAWN => 1
  | chess.KNIGHT => 3
  | chess.BISHOP => 3
  | chess.ROOK => 5
  | chess.QUEEN => 9
  | chess.KING => 0
  end.

Definition count (b : Board) (c : chess.Color) (t : chess.PieceType) : Z :=
  Z.of_nat (List.length (pieces b t c)).

Definition material_balance (b : Board) : Z :=
  (count b chess.WHITE chess.PAWN - count b chess.BLACK chess.PAWN) * piece_value chess.PAWN
  + (count b chess.WHITE chess.KNIGHT - count b chess.BLACK chess.KNIGHT) * piece_value chess.KNIGHT
  + (count b chess.WHITE chess.BISHOP - count b chess.BLACK chess.BISHOP) * piece_value chess.BISHOP
  + (count b chess.WHITE chess.ROOK - count b chess.BLACK chess.ROOK) * piece_value chess.ROOK
  + (count b chess.WHITE chess.QUEEN - count b chess.BLACK chess.QUEEN) * piece_value chess.QUEEN
  + (count b chess.WHITE chess.KING - count b chess.BLACK chess.KING) * piece_value chess.KING.

(** The evaluations of the positions one legal move away, and the best
    of them for an orientation (the exhaustiveness property of section 8). *)
Definition child_evals (b : Board) : list Z :=
  map (fun m => evaluate_board (push b m)) (legal_moves b).

Definition best_child_eval (is_maximizing : bool) (b : Board) : option Z :=
  match child_evals b with
  | [] => None
  | z :: zs => Some (fold_left (if is_maximizing then Z.max else Z.min) zs z)
  end.

(** Brute-force minimax of section 4.1, without bounds: every legal move
    is examined, the best score is replaced on strict improvement only. *)
Fixpoint brute_force_minimax (depth : nat) (is_maximizing : bool) (b : Board)
  : option chess.Move * Score.t :=
  match depth with
  | O => (None, Score.Fin (evaluate_board b))
  | S depth' =>
      if is_game_over b then (None, Score.Fin (evaluate_board b))
      else
        fold_left
          (fun best m =>
             let s := snd (brute_force_minimax depth' (negb is_maximizing) (push b m)) in
             if (if is_maximizing then Score.gtb s (snd best)
                 else Score.ltb s (snd best))
             then (Some m, s) else best)
          (legal_moves b)
          (None, if is_maximizing then Score.NegInf else Score.PosInf)
  end.

(** A computation [restores] the board when every normal return leaves
    the board it was started on. *)
Definition restores {A : Type} (c : M Board A) : Prop :=
  forall (b b' : Board) (a : A), c b = (b', Ok a) -> b' = b.

End Reference.

(** Well-formed UCI move notation: the null move 0000, a drop such as
    P@e4, or two different squares followed by at most one piece letter. *)
Definition is_file_name (c : N) : bool :=
  existsb (N.eqb c) (map chess.ord chess.FILE_NAMES).

Definition is_rank_name (c : N) : bool :=
  existsb (N.eqb c) (map chess.ord chess.RANK_NAMES).

Definition is_piece_letter (c : N) : bool :=
  existsb (N.eqb c) (map chess.ord ["p"; "n"; "b"; "r"; "q"; "k"]%char).

Definition is_char (c : N) (a : ascii) : bool := N.eqb c (chess.ord a).

Definition well_formed_uci (s : chess.pystr) : bool :=
  match s with
  | [a; b; c; d] =>
      (is_char a "0" && is_char b "0" && is_char c "0" && is_char d "0")
      || (is_char b "@" && is_piece_letter (chess.str_lower a)
          && is_file_name c && is_rank_name d)
      || (is_file_name a && is_rank_name b && is_file_name c && is_rank_name d
          && negb (N.eqb a c && N.eqb b d))
  | [a; b; c; d; p] =>
      is_file_name a && is_rank_name b && is_file_name c && is_rank_name d
      && negb (N.eqb a c && N.eqb b d) && is_piece_letter p
  | _ => false
  end.

(** * Positions used below *)

(** 4k3/8/8/8/8/8/q7/R3K3 w - - 0 1: White may take the queen on a2 with
    the rook; the king moves are enumerated first. *)
Definition queen_en_prise : chess.Board :=
  chess.board_of_fen "4k3/8/8/8/8/8/q7/R3K3" chess.WHITE [] None 0 1.

(** k6r/8/8/8/8/8/8/1K4R1 b - - 0 1: Black to move; the first move
    enumerated, h8g8, puts the rook where the white rook takes it. *)
Definition rook_hangs : chess.Board :=
  chess.board_of_fen "k6r/8/8/8/8/8/8/1K4R1" chess.BLACK [] None 0 1.

(** rnb1kbnr/pppp1ppp/8/4p3/6Pq/5P2/PPPPP2P/RNBQKBNR w KQkq - 1 3: White
    is checkmated (fool's mate). *)
Definition fools_mate : chess.Board :=
  chess.board_of_fen "rnb1kbnr/pppp1ppp/8/4p3/6Pq/5P2/PPPPP2P/RNBQKBNR"
    chess.WHITE [chess.H8; chess.A8; chess.H1; chess.A1] None 1 3.

(** 6k1/5ppp/8/8/8/8/8/Rn2K3 w - - 0 1: a1a8 mates on the back rank,
    a1b1 takes the knight. *)
Definition back_rank_mate : chess.Board :=
  chess.board_of_fen "6k1/5ppp/8/8/8/8/8/Rn2K3" chess.WHITE [] None 0 1.

(** r3k2r/8/8/8/8/8/8/R3K2R w KQkq - 0 1: both sides may castle on
    either wing. *)
Definition castling_ready : chess.Board :=
  chess.board_of_fen "r3k2r/8/8/8/8/8/8/R3K2R" chess.WHITE
    [chess.H8; chess.A8; chess.H1; chess.A1] None 0 1.

(** * The claims that the code does not meet, as properties *)

(** Terminal precedence at a position with White to move: the score
    backed up from a mating move is strictly greater than the material
    score after any legal move that does not mate. *)
Definition terminal_precedence (b : chess.Board) : Prop :=
  forall (depth : nat) (mate other : chess.Move) (s : Score.t)
         (mv : option chess.Move),
    In mate (chess.legal_moves b) ->
    In other (chess.legal_moves b) ->
    chess.is_checkmate (chess.state (chess.push b mate)) = true ->
    chess.is_checkmate (chess.state (chess.push b other)) = false ->
    snd (minimax depth Score.NegInf Score.PosInf false (chess.push b mate))
    = Ok (PyTuple mv s) ->
    Score.gtb s (Score.Fin (evaluate_board (chess.push b other))) = true.

(** A terminal position is reported: [next_move] ends with an exception
    that is not one of the interpreter's failures on [None]. *)
Definition reports_no_move (b : chess.Board) : Prop :=
  exists e : exn, snd (next_move b) = Raise e /\ uncontrolled e = false.

(** The probe answers with a boolean for every pair of strings. *)
Definition probe_never_raises (b : chess.Board) : Prop :=
  forall origin destination : chess.pystr,
    exists v : bool, snd (check_move_is_legal origin destination b) = Ok v.

(** * Notions used to state further properties *)

Section Notions.

Context {Board : Type} `{Position Board}.

(** The evaluation of the position one move away. *)
Definition child_eval (b : Board) (m : chess.Move) : Z :=
  evaluate_board (push b m).

(** [descendant depth b leaf]: [leaf] is reached from [b] by at most
    [depth] legal moves, one after the other. *)
Inductive descendant : nat -> Board -> Board -> Prop :=
| descendant_here (depth : nat) (b : Board) : descendant depth b b
| descendant_move (depth : nat) (b : Board) (m : chess.Move) (leaf : Board) :
    In m (legal_moves b) ->
    descendant depth (push b m) leaf ->
    descendant (S depth) b leaf.

End Notions.

(** A move between two different squares of the board that is not a
    drop; the moves that [Move.uci] writes as two square names and at most
    one piece letter. *)
Definition ordinary_move (m : chess.Move) : bool :=
  (0 <=? chess.from_square m) && (chess.from_square m <? 64)
  && (0 <=? chess.to_square m) && (chess.to_square m <? 64)
  && negb (chess.from_square m =? chess.to_square m)
  && match chess.drop m with None => true | Some _ => false end.

(** The part of [Move.uci] after the origin square. *)
Definition destination_part (m : chess.Move) : string :=
  match chess.promotion m with
  | Some p =>
      (chess.square_name (chess.to_square m)
       ++ String (chess.piece_symbol p) EmptyString)%string
  | None => chess.square_name (chess.to_square m)
  end.

(** * Arithmetic of scores *)

Lemma leb_false_ltb (a b : Score.t) :
  Score.leb b a = false -> Score.ltb a b = true.
Proof. unfold Score.leb. now destruct (Score.ltb a b). Qed.

Lemma ltb_leb_false (a b : Score.t) :
  Score.ltb a b = true -> Score.leb b a = false.
Proof. unfold Score.leb. now intros ->. Qed.

Lemma gtb_Fin_NegInf (z : Z) : Score.gtb (Score.Fin z) Score.NegInf = true.
Proof. reflexivity. Qed.

Lemma ltb_Fin_PosInf (z : Z) : Score.ltb (Score.Fin z) Score.PosInf = true.
Proof. reflexivity. Qed.

(** * The search over any position *)

Section Search.

Context {Board : Type} `{Position Board}.

(** One pass through the statements shared by the two loops: push the
    move, search below, take the score, pop. *)
Lemma visit_child {A : Type}
    (rec : Score.t -> Score.t -> bool -> M Board pyvalue)
    (move : chess.Move) (alpha beta : Score.t) (flag : bool)
    (k : Score.t -> M Board A) (b : Board) :
  (board_push move ;;
   r <- rec alpha beta flag ;;
   cur_eval <- subscript_1 r ;;
   board_pop ;;
   k cur_eval) b
  = match rec alpha beta flag (push b move) with
    | (b1, Ok (PyTuple _ cur_eval)) =>
        match pop b1 with
        | Some b2 => k cur_eval b2
        | None => (b1, Raise IndexError)
        end
    | (b1, Ok PyNone) => (b1, Raise TypeError)
    | (b1, Raise e) => (b1, Raise e)
    end.
Proof.
  unfold bind, board_push, board_pop, subscript_1, ret, raise.
  destruct (rec alpha beta flag (push b move)) as [b1 [[|mv s]|e]]; try reflexivity.
  destruct (pop b1); reflexivity.
Qed.

Lemma minimizing_restores
    (rec : Score.t -> Score.t -> bool -> M Board pyvalue) :
  undo_exact Board ->
  (forall alpha beta flag, restores (rec alpha beta flag)) ->
  forall moves alpha beta min_eval best_move,
    restores (minimizing rec moves alpha beta min_eval best_move).
Proof.
  intros Hundo Hrec moves.
  induction moves as [|move rest IH]; intros alpha beta min_eval best_move b b' a.
  - cbn. unfold ret. now intros [= <- _].
  - cbn [minimizing]. rewrite visit_child.
    destruct (rec alpha beta true (push b move)) as [b1 [[|mv s]|e]] eqn:E;
      try discriminate.
    apply Hrec in E. subst b1. rewrite Hundo.
    destruct (Score.leb (Score.min beta s) alpha).
    + unfold ret. now intros [= <- _].
    + apply IH.
Qed.

Lemma maximizing_restores
    (rec : Score.t -> Score.t -> bool -> M Board pyvalue) :
  undo_exact Board ->
  (forall alpha beta flag, restores (rec alpha beta flag)) ->
  forall moves alpha beta, restores (maximizing rec moves alpha beta).
Proof.
  intros Hundo Hrec [|move rest] alpha beta b b' a.
  - cbn. unfold ret. now intros [= <- _].
  - cbn [maximizing]. rewrite visit_child.
    destruct (rec alpha beta false (push b move)) as [b1 [[|mv s]|e]] eqn:E;
      try discriminate.
    apply Hrec in E. subst b1. rewrite Hundo.
    destruct (Score.leb beta alpha); unfold ret; now intros [= <- _].
Qed.

Lemma minimax_restores :
  undo_exact Board ->
  forall depth alpha beta is_maximizing,
    restores (minimax depth alpha beta is_maximizing).
Proof.
  intros Hundo depth.
  induction depth as [|depth IH]; intros alpha beta is_maximizing b b' a.
  - cbn. now intros [= <- _].
  - cbn [minimax]. destruct (is_game_over b).
    + now intros [= <- _].
    + destruct is_maximizing.
      * now apply maximizing_restores.
      * now apply minimizing_restores.
Qed.

(** With a window [alpha < beta] nothing is cut at a maximizing node and
    no call ends without a value: the search returns a pair with a finite
    score, and a move whenever it had to choose one. *)
Lemma minimizing_returns
    (rec : Score.t -> Score.t -> bool -> M Board pyvalue)
    (P : chess.Move -> Prop) (b : Board) :
  undo_exact Board ->
  (forall alpha beta flag move,
      Score.ltb alpha beta = true ->
      exists mv z,
        rec alpha beta flag (push b move)
        = (push b move, Ok (PyTuple mv (Score.Fin z)))) ->
  forall moves alpha beta min_eval best_move,
    Score.ltb alpha beta = true ->
    (forall m, In m moves -> P m) ->
    (exists z m, min_eval = Score.Fin z /\ best_move = Some m /\ P m)
    \/ (min_eval = Score.PosInf /\ moves <> []) ->
    exists m z,
      minimizing rec moves alpha beta min_eval best_move b
      = (b, Ok (PyTuple (Some m) (Score.Fin z))) /\ P m.
Proof.
  intros Hundo Hrec moves.
  induction moves as [|move rest IH];
    intros alpha beta min_eval best_move Hwin HP Hbest.
  - destruct Hbest as [(z & m & -> & -> & Hm)|[_ Hne]]; [|congruence].
    exists m, z. now split.
  - cbn [minimizing]. rewrite visit_child.
    destruct (Hrec alpha beta true move Hwin) as (mv & z & ->).
    rewrite Hundo.
    assert (Hbest' :
      exists z' m',
        fst (if Score.ltb (Score.Fin z) min_eval
             then (Score.Fin z, Some move) else (min_eval, best_move))
        = Score.Fin z'
        /\ snd (if Score.ltb (Score.Fin z) min_eval
                then (Score.Fin z, Some move) else (min_eval, best_move))
           = Some m'
        /\ P m').
    { destruct Hbest as [(z0 & m0 & -> & -> & Hm0)|[-> _]].
      - destruct (Score.ltb (Score.Fin z) (Score.Fin z0)); cbn.
        + exists z, move. repeat split. apply HP. now left.
        + exists z0, m0. now repeat split.
      - cbn. exists z, move. repeat split. apply HP. now left. }
    destruct Hbest' as (z' & m' & Ez & Em & Hm').
    rewrite Ez, Em.
    destruct (Score.leb (Score.min beta (Score.Fin z)) alpha) eqn:Ecut.
    + exists m', z'. now split.
    + apply IH.
      * now apply leb_false_ltb.
      * intros m Hm. apply HP. now right.
      * left. now exists z', m'.
Qed.

Lemma minimax_returns :
  undo_exact Board ->
  no_moves_is_game_over Board ->
  forall depth alpha beta is_maximizing b,
    Score.ltb alpha beta = true ->
    exists mv z,
      minimax depth alpha beta is_maximizing b
      = (b, Ok (PyTuple mv (Score.Fin z)))
      /\ (depth <> O -> is_game_over b = false ->
          exists m, mv = Some m /\ In m (legal_moves b)).
Proof.
  intros Hundo Hmoves depth.
  induction depth as [|depth IH]; intros alpha beta is_maximizing b Hwin.
  - exists None, (evaluate_board b). split; [reflexivity|congruence].
  - cbn [minimax]. destruct (is_game_over b) eqn:Eover.
    + exists None, (evaluate_board b). split; [reflexivity|congruence].
    + destruct (legal_moves b) as [|move rest] eqn:Emoves.
      { apply Hmoves in Emoves. congruence. }
      destruct is_maximizing.
      * cbn [maximizing]. rewrite visit_child.
        destruct (IH alpha beta false (push b move) Hwin) as (mv & z & -> & _).
        rewrite Hundo, gtb_Fin_NegInf, (ltb_leb_false _ _ Hwin). cbn.
        exists (Some move), z. split; [reflexivity|].
        intros _ _. exists move. split; [reflexivity|now left].
      * destruct (minimizing_returns (minimax depth)
                    (fun m => In m (move :: rest)) b Hundo) with
          (moves := move :: rest) (alpha := alpha) (beta := beta)
          (min_eval := Score.PosInf) (best_move := @None chess.Move)
          as (m & z & -> & Hm); auto.
        -- intros a b' flag mv Hab.
           destruct (IH a b' flag (push b mv) Hab) as (mv' & z & E & _).
           now exists mv', z.
        -- right. split; [reflexivity|discriminate].
        -- exists (Some m), z. split; [reflexivity|].
           intros _ _. now exists m.
Qed.

Lemma minimax_S (depth : nat) (alpha beta : Score.t) (is_maximizing : bool)
    (b : Board) :
  minimax (S depth) alpha beta is_maximizing b
  = if is_game_over b then
      (b, Ok (PyTuple None (Score.Fin (evaluate_board b))))
    else if is_maximizing then
      maximizing (minimax depth) (legal_moves b) alpha beta b
    else
      minimizing (minimax depth) (legal_moves b) alpha beta Score.PosInf None b.
Proof. reflexivity. Qed.

(** The maximizing branch settles on the first legal move: under the
    same conditions its result is that move with the score of its
    subtree, and the other moves are not visited. *)
Lemma maximizing_returns_first_move :
  undo_exact Board ->
  no_moves_is_game_over Board ->
  forall depth alpha beta b,
    Score.ltb alpha beta = true ->
    is_game_over b = false ->
    exists move rest mv z,
      legal_moves b = move :: rest
      /\ minimax depth alpha beta false (push b move)
         = (push b move, Ok (PyTuple mv (Score.Fin z)))
      /\ minimax (S depth) alpha beta true b
         = (b, Ok (PyTuple (Some move) (Score.Fin z))).
Proof.
  intros Hundo Hmoves depth alpha beta b Hwin Hover.
  destruct (legal_moves b) as [|move rest] eqn:Emoves.
  { apply Hmoves in Emoves. congruence. }
  destruct (minimax_returns Hundo Hmoves depth alpha beta false (push b move) Hwin)
    as (mv & z & E & _).
  exists move, rest, mv, z. split; [reflexivity|]. split; [assumption|].
  rewrite minimax_S, Hover, Emoves. cbn [maximizing].
  rewrite visit_child, E, Hundo, gtb_Fin_NegInf, (ltb_leb_false _ _ Hwin).
  reflexivity.
Qed.

(** The minimizing branch at depth 1 with bounds -inf and +inf visits
    every move: its score is the least evaluation among the children. *)
Lemma minimizing_depth_1_loop (b : Board) :
  undo_exact Board ->
  forall moves beta z0 m0,
    beta <> Score.NegInf ->
    exists m,
      minimizing (minimax 0) moves Score.NegInf beta (Score.Fin z0) (Some m0) b
      = (b, Ok (PyTuple (Some m)
                  (Score.Fin (fold_left Z.min
                                (map (fun m => evaluate_board (push b m)) moves)
                                z0)))).
Proof.
  intros Hundo moves.
  induction moves as [|move rest IH]; intros beta z0 m0 Hbeta.
  - now exists m0.
  - cbn [minimizing map fold_left]. rewrite visit_child. cbn [minimax].
    rewrite Hundo.
    set (e := evaluate_board (push b move)).
    assert (Hcut : Score.leb (Score.min beta (Score.Fin e)) Score.NegInf = false).
    { destruct beta as [|z|]; [congruence| |reflexivity].
      unfold Score.min. now destruct (Score.ltb (Score.Fin e) (Score.Fin z)). }
    rewrite Hcut. cbn [Score.ltb].
    destruct (e <? z0) eqn:Elt; cbn [fst snd].
    + replace (Z.min z0 e) with e by (apply Z.ltb_lt in Elt; lia).
      apply IH. destruct beta as [|z|]; [congruence| |discriminate].
      unfold Score.min. now destruct (Score.ltb (Score.Fin e) (Score.Fin z)).
    + replace (Z.min z0 e) with z0 by (apply Z.ltb_ge in Elt; lia).
      apply IH. destruct beta as [|z|]; [congruence| |discriminate].
      unfold Score.min. now destruct (Score.ltb (Score.Fin e) (Score.Fin z)).
Qed.

Lemma minimizing_depth_1_exhaustive :
  undo_exact Board ->
  no_moves_is_game_over Board ->
  forall b : Board,
    is_game_over b = false ->
    exists m z,
      minimax 1 Score.NegInf Score.PosInf false b
      = (b, Ok (PyTuple (Some m) (Score.Fin z)))
      /\ best_child_eval false b = Some z.
Proof.
  intros Hundo Hmoves b Hover.
  unfold best_child_eval, child_evals. rewrite minimax_S, Hover.
  destruct (legal_moves b) as [|move rest] eqn:Emoves.
  { apply Hmoves in Emoves. congruence. }
  cbn [minimizing map]. rewrite visit_child. cbn [minimax].
  rewrite Hundo. cbn [Score.min Score.ltb Score.leb negb fst snd].
  destruct (minimizing_depth_1_loop b Hundo rest
              (Score.Fin (evaluate_board (push b move)))
              (evaluate_board (push b move)) move) as [m E]; [discriminate|].
  exists m. eexists. split; [exact E|reflexivity].
Qed.

End Search.

(** * python-chess meets the contract *)

Lemma chess_undo_exact : undo_exact chess.Board.
Proof. intros [st moves states] m. reflexivity. Qed.

Lemma chess_no_moves_is_game_over : no_moves_is_game_over chess.Board.
Proof.
  intros b Hnone. cbn in *. unfold chess.legal_moves in Hnone.
  unfold chess.is_game_over, chess.no_legal_moves. rewrite Hnone.
  destruct (chess.is_checkmate (chess.state b)); [reflexivity|].
  now destruct (chess.is_insufficient_material (chess.state b)).
Qed.

Lemma Move_eqb_eq (m n : chess.Move) : chess.Move_eqb m n = true <-> m = n.
Proof.
  assert (Hp : forall p q, chess.option_PieceType_eqb p q = true <-> p = q).
  { intros [[]|] [[]|]; cbn; split; congruence. }
  destruct m as [f t p d], n as [f' t' p' d']. unfold chess.Move_eqb. cbn.
  rewrite !andb_true_iff, !Z.eqb_eq, !Hp. split.
  - intros [[[-> ->] ->] ->]. reflexivity.
  - intros [= -> -> -> ->]. auto.
Qed.

(** * The claims *)

Section Claims.

Context {Board : Type} `{Position Board}.

(** C6: [evaluate_board] is a function of the position alone, and its
    value is the sum over the six piece types of (number of White pieces
    minus number of Black pieces of the type) times the value of the type,
    with pawn 1, knight 3, bishop 3, rook 5, queen 9, king 0. *)
Theorem evaluate_board_is_material_balance (b : Board) :
  evaluate_board b = material_balance b.
Proof.
  unfold evaluate_board, material_balance, count, piece_values, piece_value.
  cbn [fold_left fst snd]. lia.
Qed.

(** C7: whenever [minimax] returns, with a pair or with [None], the
    board is the board it was called on, for every depth, bounds and
    orientation, given that [pop] undoes [push]. *)
Theorem minimax_leaves_board_unchanged :
  undo_exact Board ->
  forall (depth : nat) (alpha beta : Score.t) (is_maximizing : bool)
         (board board' : Board) (value : pyvalue),
    minimax depth alpha beta is_maximizing board = (board', Ok value) ->
    board' = board.
Proof.
  intros Hundo depth alpha beta is_maximizing board board' value.
  apply (minimax_restores Hundo).
Qed.

(** C10: on a position that is not game over, at a depth of at least
    one and with bounds [alpha < beta] (those of [next_move] and of every
    call below it), [minimax] returns a legal move, not [None], with a
    finite score, and leaves the board as it was; so [next_move] returns
    the notation of a move. *)
Theorem minimax_returns_a_move :
  undo_exact Board ->
  no_moves_is_game_over Board ->
  forall b : Board,
    is_game_over b = false ->
    (forall (depth : nat) (alpha beta : Score.t) (is_maximizing : bool),
        depth <> O ->
        Score.ltb alpha beta = true ->
        exists (m : chess.Move) (z : Z),
          minimax depth alpha beta is_maximizing b
          = (b, Ok (PyTuple (Some m) (Score.Fin z)))
          /\ In m (legal_moves b))
    /\ exists m : chess.Move, next_move b = (b, Ok (chess.uci m)).
Proof.
  intros Hundo Hmoves b Hover. split.
  - intros depth alpha beta is_maximizing Hdepth Hwin.
    destruct (minimax_returns Hundo Hmoves depth alpha beta is_maximizing b Hwin)
      as (mv & z & E & Hmv).
    destruct (Hmv Hdepth Hover) as (m & -> & Hin).
    now exists m, z.
  - destruct (minimax_returns Hundo Hmoves 4 Score.NegInf Score.PosInf true b
                eq_refl) as (mv & z & E & Hmv).
    destruct Hmv as (m & -> & _); [discriminate|assumption|].
    exists m. unfold next_move, bind. now rewrite E.
Qed.

(** C4, as the code has it: [next_move] makes no test of its own and
    always enters the search.  On a position that is game over the search
    returns no move and the conversion fails with [AttributeError]; on any
    other position [next_move] returns the notation of a legal move.  The
    board is left as it was in both cases. *)
Theorem next_move_terminal_or_move :
  undo_exact Board ->
  no_moves_is_game_over Board ->
  forall b : Board,
    if is_game_over b
    then next_move b = (b, Raise AttributeError)
    else exists m : chess.Move,
        In m (legal_moves b) /\ next_move b = (b, Ok (chess.uci m)).
Proof.
  intros Hundo Hmoves b. destruct (is_game_over b) eqn:Hover.
  - unfold next_move, bind. cbn [minimax]. now rewrite Hover.
  - destruct (minimax_returns Hundo Hmoves 4 Score.NegInf Score.PosInf true b
                eq_refl) as (mv & z & E & Hmv).
    destruct Hmv as (m & -> & Hin); [discriminate|assumption|].
    exists m. split; [assumption|]. unfold next_move, bind. now rewrite E.
Qed.

(** C5, as the code has it: a position that is game over, checkmate
    included, is scored by [evaluate_board] like any other leaf, at every
    depth and for every bounds and orientation; the line that reaches it
    backs up the material balance and no move. *)
Theorem terminal_position_scored_by_material :
  forall (depth : nat) (alpha beta : Score.t) (is_maximizing : bool)
         (b : Board),
    is_game_over b = true ->
    minimax depth alpha beta is_maximizing b
    = (b, Ok (PyTuple None (Score.Fin (evaluate_board b)))).
Proof.
  intros [|depth] alpha beta is_maximizing b Hover; cbn [minimax].
  - reflexivity.
  - now rewrite Hover.
Qed.

End Claims.

(** * The claims at concrete positions *)

Ltac in_list := repeat (first [left; reflexivity | right]).

(** C7 at the starting position, searched two plies deep. *)
Lemma minimax_leaves_board_unchanged_witness :
  undo_exact chess.Board
  /\ fst (minimax 2 Score.NegInf Score.PosInf false chess.starting_board)
     = chess.starting_board.
Proof.
  split; [exact chess_undo_exact|].
  destruct (minimax 2 Score.NegInf Score.PosInf false chess.starting_board)
    as [b' [value|e]] eqn:E.
  - exact (minimax_leaves_board_unchanged chess_undo_exact _ _ _ _ _ _ _ E).
  - vm_compute in E. discriminate E.
Defined.

(** C10 at the starting position. *)
Lemma minimax_returns_a_move_witness :
  is_game_over chess.starting_board = false
  /\ exists m : chess.Move,
      next_move chess.starting_board = (chess.starting_board, Ok (chess.uci m)).
Proof.
  assert (Hover : is_game_over chess.starting_board = false)
    by (vm_compute; reflexivity).
  split; [exact Hover|].
  exact (proj2 (minimax_returns_a_move chess_undo_exact
                  chess_no_moves_is_game_over chess.starting_board Hover)).
Defined.

(** C4, as the code has it, at the checkmated position [fools_mate] and
    at the starting position. *)
Lemma next_move_terminal_or_move_witness :
  next_move fools_mate = (fools_mate, Raise AttributeError)
  /\ exists m : chess.Move,
      In m (legal_moves chess.starting_board)
      /\ next_move chess.starting_board
         = (chess.starting_board, Ok (chess.uci m)).
Proof.
  pose proof (next_move_terminal_or_move chess_undo_exact
                chess_no_moves_is_game_over fools_mate) as Hmate.
  pose proof (next_move_terminal_or_move chess_undo_exact
                chess_no_moves_is_game_over chess.starting_board) as Hstart.
  assert (Hover : is_game_over fools_mate = true) by (vm_compute; reflexivity).
  assert (Hopen : is_game_over chess.starting_board = false)
    by (vm_compute; reflexivity).
  rewrite Hover in Hmate. rewrite Hopen in Hstart.
  split; [exact Hmate|exact Hstart].
Defined.

(** C5, as the code has it, at the checkmated position [fools_mate]. *)
Lemma terminal_position_scored_by_material_witness :
  is_game_over fools_mate = true
  /\ minimax 3 Score.NegInf Score.PosInf true fools_mate
     = (fools_mate, Ok (PyTuple None (Score.Fin (evaluate_board fools_mate)))).
Proof.
  assert (Hover : is_game_over fools_mate = true) by (vm_compute; reflexivity).
  split; [exact Hover|].
  exact (terminal_position_scored_by_material 3 Score.NegInf Score.PosInf true
           fools_mate Hover).
Defined.

(** A call that ends by raising does not return, and its [push] stays on
    the board: with [beta <= alpha] the maximizing child leaves its loop
    through [break] and hands back [None], which the minimizing parent
    subscripts between its [push] and its [pop]. *)
Lemma raise_leaves_move_pushed :
  minimax 2 (Score.Fin 0) (Score.Fin 0) false rook_hangs
  = (chess.push rook_hangs (chess.move chess.H8 chess.G8), Raise TypeError).
Proof. vm_compute. reflexivity. Qed.

(** C4 fails as stated: on the checkmated position [fools_mate],
    [next_move] ends with the interpreter's [AttributeError] on [None], not
    with a report of its own. *)
Lemma next_move_on_checkmate_counterexample : ~ reports_no_move fools_mate.
Proof.
  intros (e & He & Hcontrolled).
  assert (E : snd (next_move fools_mate) = Raise AttributeError)
    by (vm_compute; reflexivity).
  rewrite E in He. injection He as <-. discriminate Hcontrolled.
Qed.

(** C5 fails as stated: in [back_rank_mate] the mating move a1a8 backs
    up the material balance -1, which is less than the balance 2 after the
    capture a1b1, a move that does not mate. *)
Lemma mate_not_preferred_counterexample : ~ terminal_precedence back_rank_mate.
Proof.
  intros Hprec.
  specialize (Hprec 0%nat (chess.move chess.A1 chess.A8)
                (chess.move chess.A1 1) (Score.Fin (-1)) None).
  lapply Hprec; [clear Hprec; intros Hprec|vm_compute; in_list].
  lapply Hprec; [clear Hprec; intros Hprec|vm_compute; in_list].
  lapply Hprec; [clear Hprec; intros Hprec|vm_compute; reflexivity].
  lapply Hprec; [clear Hprec; intros Hprec|vm_compute; reflexivity].
  lapply Hprec; [clear Hprec; intros Hprec|vm_compute; reflexivity].
  vm_compute in Hprec. discriminate Hprec.
Qed.

(** C1, at a failing input: in [queen_en_prise] the search at depth 1
    returns the first move e1f1 with its evaluation -4, though the
    evaluations of the six children are -4, -4, 5, -4, -4, -4 and their
    maximum is 5. *)
Theorem maximizing_stops_after_first_move :
  minimax 1 Score.NegInf Score.PosInf true queen_en_prise
  = (queen_en_prise,
     Ok (PyTuple (Some (chess.move chess.E1 chess.F1)) (Score.Fin (-4))))
  /\ child_evals queen_en_prise = [-4; -4; 5; -4; -4; -4]
  /\ best_child_eval true queen_en_prise = Some 5.
Proof.
  split; [vm_compute; reflexivity|].
  split; vm_compute; reflexivity.
Qed.

(** C2, at a failing input: in [queen_en_prise] at depth 2 the search
    with bounds -inf and +inf returns e1f1 with score -9, brute-force
    minimax returns the capture a1a2 with score 5. *)
Theorem pruned_search_differs_from_brute_force :
  minimax 2 Score.NegInf Score.PosInf true queen_en_prise
  = (queen_en_prise,
     Ok (PyTuple (Some (chess.move chess.E1 chess.F1)) (Score.Fin (-9))))
  /\ brute_force_minimax 2 true queen_en_prise
     = (Some (chess.move chess.A1 8), Score.Fin 5).
Proof. split; vm_compute; reflexivity. Qed.

(** C3, at a failing input: in [rook_hangs] Black is to move, and
    [next_move] returns h8g8, the result of the maximizing search; the
    search oriented by the side to move returns h8f8 with score -5. *)
Theorem next_move_maximizes_for_black :
  turn rook_hangs = chess.BLACK
  /\ next_move rook_hangs = (rook_hangs, Ok "h8g8"%string)
  /\ minimax 4 Score.NegInf Score.PosInf true rook_hangs
     = (rook_hangs, Ok (PyTuple (Some (chess.move chess.H8 chess.G8)) (Score.Fin 0)))
  /\ minimax 4 Score.NegInf Score.PosInf (turn rook_hangs) rook_hangs
     = (rook_hangs, Ok (PyTuple (Some (chess.move chess.H8 chess.F8)) (Score.Fin (-5)))).
Proof.
  split; [vm_compute; reflexivity|].
  split; [vm_compute; reflexivity|].
  split; vm_compute; reflexivity.
Qed.

(** C8: from the starting position the search at depth 1 with bounds
    -inf and +inf returns score 0 and g1h3, the first move of the
    enumeration, in the maximizing and in the minimizing orientation;
    each of the twenty first moves leads to evaluation 0. *)
Theorem starting_position_depth_1 :
  hd_error (legal_moves chess.starting_board) = Some (chess.move chess.G1 23)
  /\ minimax 1 Score.NegInf Score.PosInf true chess.starting_board
     = (chess.starting_board,
        Ok (PyTuple (hd_error (legal_moves chess.starting_board)) (Score.Fin 0)))
  /\ minimax 1 Score.NegInf Score.PosInf false chess.starting_board
     = (chess.starting_board,
        Ok (PyTuple (hd_error (legal_moves chess.starting_board)) (Score.Fin 0)))
  /\ List.length (legal_moves chess.starting_board) = 20%nat
  /\ Forall (fun m => evaluate_board (push chess.starting_board m) = 0)
            (legal_moves chess.starting_board).
Proof.
  split; [vm_compute; reflexivity|].
  split; [vm_compute; reflexivity|].
  split; [vm_compute; reflexivity|].
  split; [vm_compute; reflexivity|].
  apply Forall_forall. intros m Hm. vm_compute in Hm.
  repeat (destruct Hm as [<-|Hm]; [vm_compute; reflexivity|]).
  destruct Hm.
Qed.

(** * Further properties of the search *)

Section SearchFacts.

Context {Board : Type} `{Position Board}.

Lemma minimizing_never_none
    (rec : Score.t -> Score.t -> bool -> M Board pyvalue) :
  forall moves alpha beta min_eval best_move b b',
    minimizing rec moves alpha beta min_eval best_move b <> (b', Ok PyNone).
Proof.
  induction moves as [|move rest IH]; intros alpha beta min_eval best_move b b'.
  - cbn. unfold ret. congruence.
  - cbn [minimizing]. rewrite visit_child.
    destruct (rec alpha beta true (push b move)) as [b1 [[|mv s]|e]];
      try congruence.
    destruct (pop b1) as [b2|]; [|congruence].
    destruct (Score.leb (Score.min beta s) alpha).
    + unfold ret. congruence.
    + apply IH.
Qed.

Lemma minimizing_raises_TypeError
    (rec : Score.t -> Score.t -> bool -> M Board pyvalue) :
  undo_exact Board ->
  (forall alpha beta flag, restores (rec alpha beta flag)) ->
  (forall alpha beta flag b b' e,
      rec alpha beta flag b = (b', Raise e) -> e = TypeError) ->
  forall moves alpha beta min_eval best_move b b' e,
    minimizing rec moves alpha beta min_eval best_move b = (b', Raise e) ->
    e = TypeError.
Proof.
  intros Hundo Hres Hrec moves.
  induction moves as [|move rest IH];
    intros alpha beta min_eval best_move b b' e.
  - cbn. unfold ret. discriminate.
  - cbn [minimizing]. rewrite visit_child.
    destruct (rec alpha beta true (push b move)) as [b1 [[|mv s]|e1]] eqn:E.
    + now intros [= _ <-].
    + apply Hres in E. subst b1. rewrite Hundo.
      destruct (Score.leb (Score.min beta s) alpha).
      * unfold ret. discriminate.
      * apply IH.
    + intros [= _ <-]. now apply Hrec in E.
Qed.

Lemma minimax_raises_TypeError :
  undo_exact Board ->
  forall depth alpha beta is_maximizing b b' e,
    minimax depth alpha beta is_maximizing b = (b', Raise e) -> e = TypeError.
Proof.
  intros Hundo depth.
  induction depth as [|depth IH]; intros alpha beta is_maximizing b b' e.
  - cbn. discriminate.
  - rewrite minimax_S. destruct (is_game_over b); [discriminate|].
    destruct is_maximizing.
    + destruct (legal_moves b) as [|move rest]; [cbn; unfold ret; discriminate|].
      cbn [maximizing]. rewrite visit_child.
      destruct (minimax depth alpha beta false (push b move))
        as [b1 [[|mv s]|e1]] eqn:E.
      * now intros [= _ <-].
      * apply (minimax_restores Hundo) in E. subst b1. rewrite Hundo.
        destruct (Score.leb beta alpha); unfold ret; discriminate.
      * intros [= _ <-]. now apply IH in E.
    + apply minimizing_raises_TypeError; try assumption.
      intros a b0 flag. now apply minimax_restores.
Qed.

Lemma minimax_none_origin :
  forall depth alpha beta is_maximizing b b',
    minimax depth alpha beta is_maximizing b = (b', Ok PyNone) ->
    is_maximizing = true /\ depth <> O /\ is_game_over b = false
    /\ (Score.leb beta alpha = true \/ legal_moves b = []).
Proof.
  intros [|depth] alpha beta is_maximizing b b'.
  - cbn. discriminate.
  - rewrite minimax_S. destruct (is_game_over b); [discriminate|].
    destruct is_maximizing.
    + intros E. repeat split; try discriminate.
      destruct (legal_moves b) as [|move rest]; [now right|left].
      cbn [maximizing] in E. rewrite visit_child in E.
      destruct (minimax depth alpha beta false (push b move))
        as [b1 [[|mv s]|e1]]; try discriminate.
      destruct (pop b1); [|discriminate].
      destruct (Score.leb beta alpha); [reflexivity|discriminate].
    + intros E. now apply minimizing_never_none in E.
Qed.

Lemma closed_window_depth_1 :
  undo_exact Board ->
  forall alpha beta b,
    is_game_over b = false ->
    Score.leb beta alpha = true \/ legal_moves b = [] ->
    minimax 1 alpha beta true b = (b, Ok PyNone).
Proof.
  intros Hundo alpha beta b Hover Hcut.
  rewrite minimax_S, Hover.
  destruct (legal_moves b) as [|move rest]; [reflexivity|].
  destruct Hcut as [Hcut|]; [|discriminate].
  cbn [maximizing]. rewrite visit_child. cbn [minimax].
  now rewrite Hundo, Hcut.
Qed.

Lemma minimizing_score_of_descendant
    (rec : Score.t -> Score.t -> bool -> M Board pyvalue)
    (depth : nat) (b : Board) :
  undo_exact Board ->
  (forall alpha beta flag, restores (rec alpha beta flag)) ->
  (forall alpha beta flag b0 b' mv z,
      rec alpha beta flag b0 = (b', Ok (PyTuple mv (Score.Fin z))) ->
      exists leaf, descendant depth b0 leaf /\ z = evaluate_board leaf) ->
  forall moves alpha beta min_eval best_move b' mv z,
    (forall m, In m moves -> In m (legal_moves b)) ->
    (forall z0, min_eval = Score.Fin z0 ->
                exists leaf, descendant (S depth) b leaf /\ z0 = evaluate_board leaf) ->
    minimizing rec moves alpha beta min_eval best_move b
    = (b', Ok (PyTuple mv (Score.Fin z))) ->
    exists leaf, descendant (S depth) b leaf /\ z = evaluate_board leaf.
Proof.
  intros Hundo Hres Hrec moves.
  induction moves as [|move rest IH];
    intros alpha beta min_eval best_move b' mv z Hlegal Hmin.
  - cbn. unfold ret. intros [= _ _ ->]. now apply Hmin.
  - cbn [minimizing]. rewrite visit_child.
    destruct (rec alpha beta true (push b move)) as [b1 [[|mv1 s]|e1]] eqn:E;
      try discriminate.
    pose proof (Hres _ _ _ _ _ _ E) as ->. rewrite Hundo.
    assert (Hmin' :
      forall z0,
        fst (if Score.ltb s min_eval then (s, Some move)
             else (min_eval, best_move)) = Score.Fin z0 ->
        exists leaf, descendant (S depth) b leaf /\ z0 = evaluate_board leaf).
    { intros z0. destruct (Score.ltb s min_eval); cbn [fst].
      - intros ->. destruct (Hrec _ _ _ _ _ _ _ E) as (leaf & Hleaf & ->).
        exists leaf. split; [|reflexivity].
        apply descendant_move with (m := move); [|assumption].
        apply Hlegal. now left.
      - apply Hmin. }
    destruct (Score.leb (Score.min beta s) alpha).
    + unfold ret. intros [= _ _ Ez]. now apply Hmin'.
    + apply IH; [|assumption]. intros m Hm. apply Hlegal. now right.
Qed.

Lemma minimax_score_of_descendant :
  undo_exact Board ->
  forall depth alpha beta is_maximizing b b' mv z,
    minimax depth alpha beta is_maximizing b
    = (b', Ok (PyTuple mv (Score.Fin z))) ->
    exists leaf, descendant depth b leaf /\ z = evaluate_board leaf.
Proof.
  intros Hundo depth.
  induction depth as [|depth IH]; intros alpha beta is_maximizing b b' mv z.
  - cbn. intros [= _ _ <-]. exists b. split; [constructor|reflexivity].
  - rewrite minimax_S. destruct (is_game_over b).
    { intros [= _ _ <-]. exists b. split; [constructor|reflexivity]. }
    destruct is_maximizing.
    + destruct (legal_moves b) as [|move rest] eqn:Emoves;
        [cbn; unfold ret; discriminate|].
      cbn [maximizing]. rewrite visit_child.
      destruct (minimax depth alpha beta false (push b move))
        as [b1 [[|mv1 s]|e1]] eqn:E; try discriminate.
      pose proof (minimax_restores Hundo _ _ _ _ _ _ _ E) as ->.
      rewrite Hundo.
      destruct (Score.leb beta alpha); unfold ret; [discriminate|].
      destruct s as [|z1|]; cbn; try discriminate.
      intros [= _ _ <-].
      destruct (IH _ _ _ _ _ _ _ E) as (leaf & Hleaf & ->).
      exists leaf. split; [|reflexivity].
      apply descendant_move with (m := move); [|assumption].
      rewrite Emoves. now left.
    + apply (minimizing_score_of_descendant (minimax depth) depth b Hundo).
      * intros a b0 flag. now apply minimax_restores.
      * intros a b0 flag b1 b2 mv1 z1. apply IH.
      * auto.
      * discriminate.
Qed.

End SearchFacts.

(** * The minimizing branch over leaves *)

Section MinimizingLeaves.

Context {Board : Type} `{Position Board}.

Lemma cut_means_low (alpha beta : Score.t) (c z : Z) :
  Score.ltb alpha beta = true ->
  Score.leb (Score.min beta (Score.Fin c)) alpha = true ->
  z <= c ->
  Score.ltb alpha (Score.Fin z) = false.
Proof.
  unfold Score.leb, Score.min.
  intros Hwin Hcut Hz.
  destruct (Score.ltb (Score.Fin c) beta) eqn:Ecb.
  - destruct alpha as [|a|]; cbn in *; try discriminate; try reflexivity.
    apply negb_true_iff in Hcut. apply Z.ltb_ge in Hcut. apply Z.ltb_ge. lia.
  - rewrite Hwin in Hcut. discriminate.
Qed.

Lemma minimizing_leaves_scan (b : Board) :
  undo_exact Board ->
  forall moves pre alpha beta min_eval best_move,
    Score.ltb alpha beta = true ->
    (pre = [] /\ min_eval = Score.PosInf /\ best_move = None /\ moves <> [])
    \/ (exists p1 m0 p2,
          pre = p1 ++ m0 :: p2
          /\ min_eval = Score.Fin (child_eval b m0)
          /\ best_move = Some m0
          /\ (forall x, In x p1 -> child_eval b m0 < child_eval b x)
          /\ (forall x, In x p2 -> child_eval b m0 <= child_eval b x)) ->
    exists p1 m p2,
      pre ++ moves = p1 ++ m :: p2
      /\ minimizing (minimax 0) moves alpha beta min_eval best_move b
         = (b, Ok (PyTuple (Some m) (Score.Fin (child_eval b m))))
      /\ (forall x, In x p1 -> child_eval b m < child_eval b x)
      /\ (Score.ltb alpha (Score.Fin (child_eval b m)) = true ->
          forall x, In x p2 -> child_eval b m <= child_eval b x).
Proof.
  intros Hundo moves. unfold child_eval.
  induction moves as [|move rest IH];
    intros pre alpha beta min_eval best_move Hwin Hinv.
  - destruct Hinv as [(_ & _ & _ & Hne)|(p1 & m0 & p2 & -> & -> & -> & H1 & H2)];
      [congruence|].
    exists p1, m0, p2. rewrite app_nil_r. repeat split; auto.
  - cbn [minimizing]. rewrite visit_child. cbn [minimax]. rewrite Hundo.
    set (c := evaluate_board (push b move)).
    assert (Hinv' :
      exists p1 m0 p2,
        pre ++ [move] = p1 ++ m0 :: p2
        /\ fst (if Score.ltb (Score.Fin c) min_eval
                then (Score.Fin c, Some move) else (min_eval, best_move))
           = Score.Fin (evaluate_board (push b m0))
        /\ snd (if Score.ltb (Score.Fin c) min_eval
                then (Score.Fin c, Some move) else (min_eval, best_move))
           = Some m0
        /\ (forall x, In x p1 -> evaluate_board (push b m0) < evaluate_board (push b x))
        /\ (forall x, In x p2 -> evaluate_board (push b m0) <= evaluate_board (push b x))
        /\ evaluate_board (push b m0) <= c).
    { destruct Hinv as [(-> & -> & -> & _)|(p1 & m0 & p2 & -> & -> & -> & H1 & H2)].
      - exists [], move, []. cbn. repeat split; try easy; unfold c; lia.
      - cbn [Score.ltb]. destruct (c <? evaluate_board (push b m0)) eqn:Elt.
        + apply Z.ltb_lt in Elt. exists (p1 ++ m0 :: p2), move, [].
          cbn [fst snd].
          split; [reflexivity|]. split; [reflexivity|]. split; [reflexivity|].
          split; [|split; [intros x []|unfold c; lia]].
          intros x Hx. apply in_app_or in Hx.
          destruct Hx as [Hx|[<-|Hx]];
            [specialize (H1 x Hx)| |specialize (H2 x Hx)]; lia.
        + apply Z.ltb_ge in Elt. exists p1, m0, (p2 ++ [move]).
          cbn [fst snd].
          split; [now rewrite <- app_assoc|].
          split; [reflexivity|]. split; [reflexivity|].
          split; [assumption|]. split; [|exact Elt].
          intros x Hx. apply in_app_or in Hx.
          destruct Hx as [Hx|[<-|[]]]; [now apply H2|exact Elt]. }
    destruct Hinv' as (p1 & m0 & p2 & Epre & Ez & Em & H1 & H2 & Hc).
    rewrite Ez, Em.
    destruct (Score.leb (Score.min beta (Score.Fin c)) alpha) eqn:Ecut.
    + exists p1, m0, (p2 ++ rest). repeat split; auto.
      * replace (pre ++ move :: rest) with ((pre ++ [move]) ++ rest)
          by (now rewrite <- app_assoc).
        rewrite Epre. now rewrite <- app_assoc.
      * intros Hhigh.
        rewrite (cut_means_low alpha beta c _ Hwin Ecut Hc) in Hhigh.
        discriminate.
    + destruct (IH (pre ++ [move]) alpha (Score.min beta (Score.Fin c))
                  (Score.Fin (evaluate_board (push b m0))) (Some m0))
        as (q1 & m & q2 & Eall & Erun & Hq1 & Hq2).
      * now apply leb_false_ltb.
      * right. exists p1, m0, p2. repeat split; auto.
      * exists q1, m, q2. repeat split; auto.
        rewrite <- Eall. now rewrite <- app_assoc.
Qed.

End MinimizingLeaves.

(** * Further properties, stated *)

Section Extras.

Context {Board : Type} `{Position Board}.

(** X1: a minimizing call at depth 1 with [alpha < beta] on a live
    position returns a legal move together with the evaluation of the
    position after it; every move enumerated before it evaluates strictly
    higher (the first of equal moves is kept), and when the score is above
    [alpha] no move enumerated after it evaluates lower: the score is then
    the minimum over all legal moves. *)
Theorem minimizing_depth_1_returns_first_minimum :
  undo_exact Board ->
  forall (b : Board) (alpha beta : Score.t),
    Score.ltb alpha beta = true ->
    is_game_over b = false ->
    legal_moves b <> [] ->
    exists pre m post,
      legal_moves b = pre ++ m :: post
      /\ minimax 1 alpha beta false b
         = (b, Ok (PyTuple (Some m) (Score.Fin (child_eval b m))))
      /\ (forall x, In x pre -> child_eval b m < child_eval b x)
      /\ (Score.ltb alpha (Score.Fin (child_eval b m)) = true ->
          forall x, In x post -> child_eval b m <= child_eval b x).
Proof.
  intros Hundo b alpha beta Hwin Hover Hmoves.
  rewrite minimax_S, Hover.
  destruct (minimizing_leaves_scan b Hundo (legal_moves b) [] alpha beta
              Score.PosInf None Hwin) as (pre & m & post & E & Hrun & Hpre & Hpost).
  - left. repeat split; assumption.
  - exists pre, m, post. repeat split; assumption.
Qed.

(** X2: a maximizing call at a depth of at least one with
    [alpha < beta] on a live position returns the first legal move of the
    enumeration, with the score that the search below that move returns;
    the other legal moves have no part in the result. *)
Theorem maximizing_call_returns_first_move :
  undo_exact Board ->
  no_moves_is_game_over Board ->
  forall (depth : nat) (alpha beta : Score.t) (b : Board),
    Score.ltb alpha beta = true ->
    is_game_over b = false ->
    exists move rest mv z,
      legal_moves b = move :: rest
      /\ minimax depth alpha beta false (push b move)
         = (push b move, Ok (PyTuple mv (Score.Fin z)))
      /\ minimax (S depth) alpha beta true b
         = (b, Ok (PyTuple (Some move) (Score.Fin z))).
Proof.
  intros Hundo Hmoves depth alpha beta b Hwin Hover.
  now apply maximizing_returns_first_move.
Qed.

(** X3: on a live position [next_move] returns the notation of the
    first legal move of the enumeration and leaves the board as it was. *)
Theorem next_move_plays_first_legal_move :
  undo_exact Board ->
  no_moves_is_game_over Board ->
  forall b : Board,
    is_game_over b = false ->
    exists move rest,
      legal_moves b = move :: rest
      /\ next_move b = (b, Ok (chess.uci move)).
Proof.
  intros Hundo Hmoves b Hover.
  destruct (maximizing_returns_first_move Hundo Hmoves 3 Score.NegInf
              Score.PosInf b eq_refl Hover)
    as (move & rest & mv & z & Emoves & _ & Erun).
  exists move, rest. split; [assumption|].
  unfold next_move, bind. now rewrite Erun.
Qed.

(** X4: an exception that leaves [minimax] is a [TypeError], never the
    [IndexError] of a [pop] on an empty stack, and it arises only from a
    call with [beta <= alpha]. *)
Theorem minimax_raises_only_TypeError :
  undo_exact Board ->
  no_moves_is_game_over Board ->
  forall (depth : nat) (alpha beta : Score.t) (is_maximizing : bool)
         (b b' : Board) (e : exn),
    minimax depth alpha beta is_maximizing b = (b', Raise e) ->
    e = TypeError /\ Score.leb beta alpha = true.
Proof.
  intros Hundo Hmoves depth alpha beta is_maximizing b b' e E. split.
  - exact (minimax_raises_TypeError Hundo _ _ _ _ _ _ _ E).
  - unfold Score.leb. destruct (Score.ltb alpha beta) eqn:Hwin; [|reflexivity].
    destruct (minimax_returns Hundo Hmoves depth alpha beta is_maximizing b Hwin)
      as (mv & z & E' & _).
    rewrite E' in E. discriminate E.
Qed.

(** X5: [minimax] returns [None] only from the maximizing branch, at a
    depth of at least one on a position that is not game over, and only
    when [beta <= alpha] or the position has no legal move; a minimizing
    call never returns [None]. *)
Theorem minimax_none_only_from_maximizing :
  forall (depth : nat) (alpha beta : Score.t) (is_maximizing : bool)
         (b b' : Board),
    minimax depth alpha beta is_maximizing b = (b', Ok PyNone) ->
    is_maximizing = true /\ depth <> O /\ is_game_over b = false
    /\ (Score.leb beta alpha = true \/ legal_moves b = []).
Proof. exact minimax_none_origin. Qed.

(** X6: with [beta <= alpha] a maximizing call at depth 1 on a position
    that is not game over returns [None], not a pair, and leaves the board
    as it was. *)
Theorem closed_window_returns_none :
  undo_exact Board ->
  forall (alpha beta : Score.t) (b : Board),
    is_game_over b = false ->
    Score.leb beta alpha = true ->
    minimax 1 alpha beta true b = (b, Ok PyNone).
Proof.
  intros Hundo alpha beta b Hover Hcut.
  apply closed_window_depth_1; auto.
Qed.

(** X7: with [beta <= alpha] a minimizing call at depth 2 on a live
    position whose first move leads to a live position raises [TypeError],
    and the board keeps that first move pushed. *)
Theorem closed_window_raise_keeps_push :
  undo_exact Board ->
  forall (alpha beta : Score.t) (b : Board) (move : chess.Move)
         (rest : list chess.Move),
    Score.leb beta alpha = true ->
    is_game_over b = false ->
    legal_moves b = move :: rest ->
    is_game_over (push b move) = false ->
    minimax 2 alpha beta false b = (push b move, Raise TypeError).
Proof.
  intros Hundo alpha beta b move rest Hcut Hover Emoves Hchild.
  rewrite minimax_S, Hover, Emoves. cbn [minimizing].
  rewrite visit_child.
  rewrite (closed_window_depth_1 Hundo alpha beta (push b move) Hchild
             (or_introl Hcut)).
  reflexivity.
Qed.

(** X8: a finite score returned by [minimax] is the value of
    [evaluate_board] at a position reached from the board by at most
    [depth] legal moves. *)
Theorem minimax_score_is_a_descendant_evaluation :
  undo_exact Board ->
  forall (depth : nat) (alpha beta : Score.t) (is_maximizing : bool)
         (b b' : Board) (mv : option chess.Move) (z : Z),
    minimax depth alpha beta is_maximizing b
    = (b', Ok (PyTuple mv (Score.Fin z))) ->
    exists leaf : Board, descendant depth b leaf /\ z = evaluate_board leaf.
Proof. exact minimax_score_of_descendant. Qed.

End Extras.

(** * The further properties at concrete positions *)

(** X1 at [queen_en_prise], searched as a minimizing node. *)
Lemma minimizing_depth_1_returns_first_minimum_witness :
  exists pre m post,
    legal_moves queen_en_prise = pre ++ m :: post
    /\ minimax 1 Score.NegInf Score.PosInf false queen_en_prise
       = (queen_en_prise,
          Ok (PyTuple (Some m) (Score.Fin (child_eval queen_en_prise m))))
    /\ (forall x, In x pre -> child_eval queen_en_prise m < child_eval queen_en_prise x)
    /\ (Score.ltb Score.NegInf (Score.Fin (child_eval queen_en_prise m)) = true ->
        forall x, In x post ->
                  child_eval queen_en_prise m <= child_eval queen_en_prise x).
Proof.
  apply (minimizing_depth_1_returns_first_minimum chess_undo_exact
           queen_en_prise Score.NegInf Score.PosInf).
  - reflexivity.
  - vm_compute. reflexivity.
  - vm_compute. discriminate.
Defined.

(** X2 at the starting position, three plies below the root. *)
Lemma maximizing_call_returns_first_move_witness :
  exists move rest mv z,
    legal_moves chess.starting_board = move :: rest
    /\ minimax 3 Score.NegInf Score.PosInf false (push chess.starting_board move)
       = (push chess.starting_board move, Ok (PyTuple mv (Score.Fin z)))
    /\ minimax 4 Score.NegInf Score.PosInf true chess.starting_board
       = (chess.starting_board, Ok (PyTuple (Some move) (Score.Fin z))).
Proof.
  apply (maximizing_call_returns_first_move chess_undo_exact
           chess_no_moves_is_game_over 3 Score.NegInf Score.PosInf
           chess.starting_board).
  - reflexivity.
  - vm_compute. reflexivity.
Defined.

(** X3 at the starting position. *)
Lemma next_move_plays_first_legal_move_witness :
  exists move rest,
    legal_moves chess.starting_board = move :: rest
    /\ next_move chess.starting_board
       = (chess.starting_board, Ok (chess.uci move)).
Proof.
  apply (next_move_plays_first_legal_move chess_undo_exact
           chess_no_moves_is_game_over chess.starting_board).
  vm_compute. reflexivity.
Defined.

(** X4 at [rook_hangs] with the closed window 0, 0. *)
Lemma minimax_raises_only_TypeError_witness :
  TypeError = TypeError /\ Score.leb (Score.Fin 0) (Score.Fin 0) = true.
Proof.
  apply (minimax_raises_only_TypeError chess_undo_exact
           chess_no_moves_is_game_over 2 (Score.Fin 0) (Score.Fin 0) false
           rook_hangs
           (chess.push rook_hangs (chess.move chess.H8 chess.G8)) TypeError).
  vm_compute. reflexivity.
Defined.

(** X5 at [rook_hangs] with the closed window 0, 0. *)
Lemma minimax_none_only_from_maximizing_witness :
  true = true /\ 1%nat <> O /\ is_game_over rook_hangs = false
  /\ (Score.leb (Score.Fin 0) (Score.Fin 0) = true
      \/ legal_moves rook_hangs = []).
Proof.
  apply (minimax_none_only_from_maximizing 1 (Score.Fin 0) (Score.Fin 0) true
           rook_hangs rook_hangs).
  vm_compute. reflexivity.
Defined.

(** X6 at [rook_hangs] with the closed window 0, 0. *)
Lemma closed_window_returns_none_witness :
  minimax 1 (Score.Fin 0) (Score.Fin 0) true rook_hangs
  = (rook_hangs, Ok PyNone).
Proof.
  apply (closed_window_returns_none chess_undo_exact).
  - vm_compute. reflexivity.
  - reflexivity.
Defined.

(** X7 at [rook_hangs] with the closed window 0, 0. *)
Lemma closed_window_raise_keeps_push_witness :
  minimax 2 (Score.Fin 0) (Score.Fin 0) false rook_hangs
  = (push rook_hangs (chess.move chess.H8 chess.G8), Raise TypeError).
Proof.
  eapply (closed_window_raise_keeps_push chess_undo_exact).
  - reflexivity.
  - vm_compute. reflexivity.
  - vm_compute. reflexivity.
  - vm_compute. reflexivity.
Defined.

(** X8 at the starting position, searched one ply deep. *)
Lemma minimax_score_is_a_descendant_evaluation_witness :
  exists leaf : chess.Board,
    descendant 1 chess.starting_board leaf /\ 0 = evaluate_board leaf.
Proof.
  apply (minimax_score_is_a_descendant_evaluation chess_undo_exact 1
           Score.NegInf Score.PosInf true chess.starting_board
           chess.starting_board (Some (chess.move chess.G1 23)) 0).
  vm_compute. reflexivity.
Defined.

(** * Move notation *)

Lemma code_index_bound (c : N) (l : list N) (i : Z) :
  chess.code_index c l = Some i -> 0 <= i < Z.of_nat (List.length l).
Proof.
  revert i. induction l as [|x r IH]; intros i; cbn [chess.code_index List.length].
  - discriminate.
  - destruct (N.eqb x c).
    + intros [= <-]. lia.
    + destruct (chess.code_index c r) as [j|]; [|discriminate].
      intros [= <-]. specialize (IH j eq_refl). lia.
Qed.

Lemma code_index_inj (a c : N) (l : list N) (i : Z) :
  chess.code_index a l = Some i -> chess.code_index c l = Some i -> a = c.
Proof.
  revert i. induction l as [|x r IH]; intros i; cbn [chess.code_index].
  - discriminate.
  - destruct (N.eqb_spec x a) as [Ha|Ha], (N.eqb_spec x c) as [Hc|Hc].
    + congruence.
    + intros [= <-].
      destruct (chess.code_index c r) as [j|] eqn:E; [|discriminate].
      apply code_index_bound in E. cbn. intros [= Hj]. lia.
    + destruct (chess.code_index a r) as [j|] eqn:E; [|discriminate].
      apply code_index_bound in E. cbn. intros [= Hj] [= <-]. lia.
    + destruct (chess.code_index a r) as [j|], (chess.code_index c r) as [j'|];
        try discriminate.
      cbn. intros [= <-] [= Hj]. apply (IH j); f_equal; lia.
Qed.

Lemma code_index_defined (c : N) (l : list N) :
  existsb (N.eqb c) l
  = match chess.code_index c l with Some _ => true | None => false end.
Proof.
  induction l as [|x r IH]; cbn [existsb chess.code_index]; [reflexivity|].
  rewrite (N.eqb_sym c x). destruct (N.eqb x c); [reflexivity|].
  rewrite IH. now destruct (chess.code_index c r).
Qed.

Lemma PIECE_SYMBOLS_index_defined (c : N) :
  is_piece_letter c
  = match chess.PIECE_SYMBOLS_index c with Some _ => true | None => false end.
Proof.
  unfold is_piece_letter, chess.PIECE_SYMBOLS_index.
  cbn [existsb find map chess.piece_symbol].
  rewrite !(N.eqb_sym c).
  repeat match goal with
         | |- context [N.eqb ?x c] => destruct (N.eqb x c); cbn [orb]
         end; reflexivity.
Qed.

(** Two characters name a square exactly when they are a file letter
    and a rank digit, and two names give one square only when they are
    the same name. *)
Lemma square_names_index_defined (f r : N) :
  is_file_name f && is_rank_name r
  = match chess.square_names_index f r with
    | Some _ => true
    | None => false
    end.
Proof.
  unfold is_file_name, is_rank_name, chess.square_names_index.
  rewrite !code_index_defined.
  destruct (chess.code_index f (map chess.ord chess.FILE_NAMES)),
           (chess.code_index r (map chess.ord chess.RANK_NAMES)); reflexivity.
Qed.

Lemma square_names_index_inj (f r f' r' : N) (sq sq' : chess.Square) :
  chess.square_names_index f r = Some sq ->
  chess.square_names_index f' r' = Some sq' ->
  (sq =? sq') = (N.eqb f f' && N.eqb r r').
Proof.
  unfold chess.square_names_index.
  destruct (chess.code_index f (map chess.ord chess.FILE_NAMES)) as [i|] eqn:Ei;
    [|discriminate].
  destruct (chess.code_index r (map chess.ord chess.RANK_NAMES)) as [j|] eqn:Ej;
    [|discriminate].
  destruct (chess.code_index f' (map chess.ord chess.FILE_NAMES)) as [i'|] eqn:Ei';
    [|discriminate].
  destruct (chess.code_index r' (map chess.ord chess.RANK_NAMES)) as [j'|] eqn:Ej';
    [|discriminate].
  intros [= <-] [= <-].
  pose proof (code_index_bound _ _ _ Ei) as Bi.
  pose proof (code_index_bound _ _ _ Ei') as Bi'.
  cbn in Bi, Bi'. unfold chess.square.
  destruct (N.eqb_spec f f') as [Hf|Hf], (N.eqb_spec r r') as [Hr|Hr];
    cbn [andb].
  - subst f' r'. rewrite Ei in Ei'. rewrite Ej in Ej'.
    injection Ei' as <-. injection Ej' as <-. apply Z.eqb_refl.
  - apply Z.eqb_neq. intros Heq. apply Hr. subst f'.
    rewrite Ei in Ei'. injection Ei' as <-.
    apply (code_index_inj r r' (map chess.ord chess.RANK_NAMES) j); [assumption|].
    rewrite Ej'. f_equal. lia.
  - apply Z.eqb_neq. intros Heq. apply Hf.
    apply (code_index_inj f f' (map chess.ord chess.FILE_NAMES) i); [assumption|].
    rewrite Ei'. f_equal. lia.
  - apply Z.eqb_neq. intros Heq. apply Hf.
    apply (code_index_inj f f' (map chess.ord chess.FILE_NAMES) i); [assumption|].
    rewrite Ei'. f_equal. lia.
Qed.

Lemma at_sign_is_no_rank (b : N) :
  is_char b "@" = true -> is_rank_name b = false.
Proof. intros E. apply N.eqb_eq in E. now subst b. Qed.

Lemma null_test (a b c d : N) :
  chess.pystr_eqb [a; b; c; d] (chess.str "0000")
  = is_char a "0" && is_char b "0" && is_char c "0" && is_char d "0".
Proof.
  unfold is_char. cbn.
  destruct (N.eqb a _), (N.eqb b _), (N.eqb c _), (N.eqb d _); reflexivity.
Qed.

(** Case analysis on the two square names of a move string. *)
Ltac case_squares a b c d :=
  let Hab := fresh "Hab" in
  let Hcd := fresh "Hcd" in
  let Eab := fresh "Eab" in
  let Ecd := fresh "Ecd" in
  pose proof (square_names_index_defined a b) as Hab;
  pose proof (square_names_index_defined c d) as Hcd;
  destruct (chess.square_names_index a b) eqn:Eab;
  destruct (chess.square_names_index c d) eqn:Ecd;
  try rewrite (square_names_index_inj _ _ _ _ _ _ Eab Ecd);
  destruct (is_file_name a); destruct (is_rank_name b);
  try discriminate Hab;
  destruct (is_file_name c); destruct (is_rank_name d);
  try discriminate Hcd;
  cbn [andb orb negb].

(** [Move.from_uci] accepts exactly the well-formed strings. *)
Lemma from_uci_accepts_well_formed (s : chess.pystr) :
  if well_formed_uci s
  then exists m : chess.Move, chess.from_uci s = Ok m
  else chess.from_uci s = Raise InvalidMoveError.
Proof.
  destruct s as [|a [|b [|c [|d [|p [|q s]]]]]];
    try reflexivity;
    unfold well_formed_uci, chess.from_uci.
  - (* one character *)
    cbn. now rewrite andb_false_r.
  - cbn. now rewrite !andb_false_r.
  - cbn. now rewrite !andb_false_r.
  - (* four characters *)
    rewrite null_test.
    cbn [List.length nth_error Nat.eqb Nat.leb andb option_map].
    destruct (is_char a "0" && is_char b "0" && is_char c "0" && is_char d "0");
      cbn [orb].
    { now exists chess.null. }
    rewrite (PIECE_SYMBOLS_index_defined (chess.str_lower a)).
    fold (is_char b "@").
    destruct (is_char b "@") eqn:Eat.
    + rewrite (at_sign_is_no_rank b Eat).
      destruct (chess.PIECE_SYMBOLS_index (chess.str_lower a)) as [piece|];
        case_squares a b c d; try reflexivity; eexists; reflexivity.
    + cbn [andb orb].
      case_squares a b c d; try reflexivity;
        destruct (N.eqb a c && N.eqb b d); cbn [negb];
        try reflexivity; eexists; reflexivity.
  - (* five characters *)
    replace (chess.pystr_eqb [a; b; c; d; p] (chess.str "0000")) with false
      by (cbn; now rewrite !andb_false_r).
    cbn [List.length nth_error Nat.eqb Nat.leb andb option_map].
    rewrite (PIECE_SYMBOLS_index_defined p).
    destruct (chess.PIECE_SYMBOLS_index p) as [piece|]; cbn [option_map];
      case_squares a b c d; try reflexivity;
      destruct (N.eqb a c && N.eqb b d); cbn [negb andb];
      try reflexivity; eexists; reflexivity.
  - cbn. now rewrite !andb_false_r.
Qed.
(** * The membership test of python-chess and its enumeration *)

Lemma PieceType_eqb_eq (p q : chess.PieceType) :
  chess.PieceType_eqb p q = true <-> p = q.
Proof. destruct p, q; cbn; split; congruence. Qed.

Lemma piece_on_range (pl : chess.Placement) (sq : chess.Square) (p : chess.Piece) :
  chess.piece_on pl sq = Some p -> 0 <= sq < 64.
Proof.
  unfold chess.piece_on.
  destruct (0 <=? sq) eqn:E0; [|discriminate].
  destruct (sq <? 64) eqn:E1; [|discriminate].
  intros _. apply Z.leb_le in E0. apply Z.ltb_lt in E1. lia.
Qed.

Lemma occupied_co_inv (pl : chess.Placement) (c : chess.Color) (sq : chess.Square) :
  chess.occupied_co pl c sq = true ->
  exists p, chess.piece_on pl sq = Some p /\ chess.color p = c.
Proof.
  unfold chess.occupied_co. destruct (chess.piece_on pl sq) as [p|]; [|discriminate].
  intros E. exists p. split; [reflexivity|]. now apply Bool.eqb_prop.
Qed.

Lemma is_piece_inv (pl : chess.Placement) (t : chess.PieceType) (c : chess.Color)
    (sq : chess.Square) :
  chess.is_piece pl t c sq = true ->
  exists p, chess.piece_on pl sq = Some p /\ chess.piece_type p = t
            /\ chess.color p = c.
Proof.
  unfold chess.is_piece. destruct (chess.piece_on pl sq) as [p|]; [|discriminate].
  intros E. apply andb_true_iff in E. destruct E as [Et Ec].
  exists p. repeat split.
  - now apply PieceType_eqb_eq.
  - now apply Bool.eqb_prop.
Qed.

Lemma occupied_co_of_piece (pl : chess.Placement) (sq : chess.Square) (p : chess.Piece) :
  chess.piece_on pl sq = Some p -> chess.occupied_co pl (chess.color p) sq = true.
Proof. unfold chess.occupied_co. intros ->. apply Bool.eqb_reflx. Qed.

Lemma not_occupied_co (pl : chess.Placement) (c : chess.Color) (sq : chess.Square) :
  chess.occupied pl sq = false -> chess.occupied_co pl c sq = false.
Proof.
  unfold chess.occupied, chess.occupied_co.
  now destruct (chess.piece_on pl sq).
Qed.

Lemma other_side_not_own (pl : chess.Placement) (c : chess.Color) (sq : chess.Square) :
  chess.occupied_co pl (negb c) sq = true -> chess.occupied_co pl c sq = false.
Proof.
  unfold chess.occupied_co. destruct (chess.piece_on pl sq) as [p|]; [|discriminate].
  destruct (chess.color p), c; cbn; congruence.
Qed.

Lemma mem_In (sq : chess.Square) (l : list chess.Square) :
  chess.mem sq l = true -> In sq l.
Proof.
  unfold chess.mem. intros E. apply existsb_exists in E.
  destruct E as (x & Hx & E). apply Z.eqb_eq in E. now subst x.
Qed.

Lemma In_existsb_Move (m : chess.Move) (l : list chess.Move) :
  In m l -> existsb (chess.Move_eqb m) l = true.
Proof.
  intros Hm. apply existsb_exists. exists m. split; [assumption|].
  now apply Move_eqb_eq.
Qed.

Lemma square_rank_bounds (sq : chess.Square) :
  0 <= sq < 64 -> chess.square_rank sq = sq / 8 /\ 0 <= sq / 8 <= 7.
Proof.
  intros Hsq. unfold chess.square_rank. rewrite Z.shiftr_div_pow2 by lia.
  change (2 ^ 3) with 8. split; [reflexivity|].
  split; [apply Z.div_pos; lia|].
  apply Z.lt_succ_r. apply Z.div_lt_upper_bound; lia.
Qed.

Lemma square_rank_square (f r : Z) :
  chess.on_board f r = true -> chess.square_rank (chess.square f r) = r.
Proof.
  unfold chess.on_board. rewrite !andb_true_iff, !Z.leb_le, !Z.ltb_lt.
  intros [[[Hf0 Hf1] Hr0] Hr1].
  unfold chess.square_rank, chess.square. rewrite Z.shiftr_div_pow2 by lia.
  change (2 ^ 3) with 8. rewrite Z.add_comm, Z.div_add by lia.
  rewrite Z.div_small by lia. lia.
Qed.

Lemma rank_of_pawn_attack (c : chess.Color) (f t : chess.Square) :
  0 <= f < 64 ->
  In t (chess.pawn_attacks c f) ->
  chess.square_rank t = chess.square_rank f + (if c then 1 else -1).
Proof.
  intros Hf. unfold chess.pawn_attacks, chess.steps. rewrite in_flat_map.
  intros (d & Hd & Ht).
  destruct (chess.on_board (chess.square_file f + fst d)
                           (chess.square_rank f + snd d)) eqn:Eon; [|destruct Ht].
  destruct Ht as [<-|[]]. rewrite (square_rank_square _ _ Eon).
  destruct c; cbn in Hd; destruct Hd as [<-|[<-|[]]]; reflexivity.
Qed.

(** What makes [is_pseudo_legal] answer yes. *)
Lemma not_null_of_squares (pl : chess.Placement) (c : chess.Color) (m : chess.Move) :
  chess.occupied_co pl c (chess.from_square m) = true ->
  chess.occupied_co pl c (chess.to_square m) = false ->
  chess.Move_eqb m chess.null = false.
Proof.
  intros Hfrom Hto. destruct (chess.Move_eqb m chess.null) eqn:E; [|reflexivity].
  apply Move_eqb_eq in E. subst m. cbn in *. congruence.
Qed.

Lemma is_pseudo_legal_piece (st : chess.BoardState) (f t : chess.Square) :
  chess.occupied_co (chess.placement st) (chess.turn st) f = true ->
  chess.type_on (chess.placement st) chess.PAWN f = false ->
  chess.occupied_co (chess.placement st) (chess.turn st) t = false ->
  chess.mem t (chess.attacks (chess.placement st) f) = true ->
  chess.is_pseudo_legal st (chess.move f t) = true.
Proof.
  intros Hown Hpawn Hto Hatt.
  unfold chess.is_pseudo_legal.
  rewrite (not_null_of_squares (chess.placement st) (chess.turn st)
             (chess.move f t) Hown Hto).
  cbn [chess.drop chess.move chess.from_square chess.to_square chess.promotion].
  destruct (occupied_co_inv _ _ _ Hown) as (p & Ep & Ec).
  rewrite Ep, Hown. cbn [negb].
  unfold chess.type_on in Hpawn. rewrite Ep in Hpawn. rewrite Hpawn, Hto, Hatt.
  now destruct (if chess.PieceType_eqb (chess.piece_type p) chess.KING
                then _ else false).
Qed.

Lemma is_pseudo_legal_castling (st : chess.BoardState) (m : chess.Move) :
  chess.Move_eqb m chess.null = false ->
  chess.drop m = None ->
  chess.promotion m = None ->
  chess.is_piece (chess.placement st) chess.KING (chess.turn st)
                 (chess.from_square m) = true ->
  In (chess.from_chess960 (chess.placement st) (chess.from_square m)
                          (chess.to_square m))
     (chess.castling_moves st) ->
  chess.is_pseudo_legal st m = true.
Proof.
  intros Hnull Hdrop Hprom Hking Hin.
  unfold chess.is_pseudo_legal. rewrite Hnull, Hdrop, Hprom.
  destruct (is_piece_inv _ _ _ _ Hking) as (p & Ep & Et & Ec).
  rewrite Ep. rewrite <- Ec at 1. rewrite (occupied_co_of_piece _ _ _ Ep).
  cbn [negb]. rewrite Et. cbn [chess.PieceType_eqb].
  now rewrite (In_existsb_Move _ _ Hin).
Qed.

Lemma is_pseudo_legal_pawn (st : chess.BoardState) (m : chess.Move) :
  chess.drop m = None ->
  chess.is_piece (chess.placement st) chess.PAWN (chess.turn st)
                 (chess.from_square m) = true ->
  chess.occupied_co (chess.placement st) (chess.turn st) (chess.to_square m)
  = false ->
  (chess.promotion m <> None ->
   chess.square_rank (chess.to_square m) = (if chess.turn st then 7 else 0)) ->
  In m (chess.pseudo_legal_moves st true) ->
  chess.is_pseudo_legal st m = true.
Proof.
  intros Hdrop Hpawn Hto Hprom Hin.
  destruct (is_piece_inv _ _ _ _ Hpawn) as (p & Ep & Et & Ec).
  pose proof (occupied_co_of_piece _ _ _ Ep) as Hown. rewrite Ec in Hown.
  unfold chess.is_pseudo_legal.
  rewrite (not_null_of_squares _ _ m Hown Hto), Hdrop, Ep, Hown, Et, Hto.
  cbn [negb chess.PieceType_eqb].
  rewrite (In_existsb_Move _ _ Hin).
  destruct (chess.promotion m) as [q|]; [|reflexivity].
  rewrite Hprom by discriminate.
  now destruct (chess.turn st).
Qed.

Lemma promotions_or_plain_inv (f t : chess.Square) (m : chess.Move) :
  In m (chess.promotions_or_plain f t) ->
  chess.from_square m = f /\ chess.to_square m = t /\ chess.drop m = None
  /\ (chess.promotion m <> None ->
      chess.square_rank t = 0 \/ chess.square_rank t = 7).
Proof.
  unfold chess.promotions_or_plain.
  destruct (chess.square_rank t =? 0) eqn:E0.
  - apply Z.eqb_eq in E0. cbn [orb].
    intros [<-|[<-|[<-|[<-|[]]]]]; cbn; auto.
  - cbn [orb]. destruct (chess.square_rank t =? 7) eqn:E7.
    + apply Z.eqb_eq in E7.
      intros [<-|[<-|[<-|[<-|[]]]]]; cbn; auto.
    + intros [<-|[]]. cbn. repeat split; congruence.
Qed.

Lemma piece_moves_pseudo (st : chess.BoardState) (kings_too : bool) (m : chess.Move) :
  In m (chess.piece_moves st kings_too) -> chess.is_pseudo_legal st m = true.
Proof.
  unfold chess.piece_moves. rewrite in_flat_map. intros (f & _ & Hm).
  destruct (chess.occupied_co (chess.placement st) (chess.turn st) f) eqn:Hown;
    [|destruct Hm].
  destruct (chess.type_on (chess.placement st) chess.PAWN f) eqn:Hpawn;
    [destruct Hm|].
  cbn [negb andb] in Hm.
  destruct (kings_too || negb (chess.type_on (chess.placement st) chess.KING f));
    [|destruct Hm].
  apply in_map_iff in Hm. destruct Hm as (t & <- & Ht).
  apply filter_In in Ht. destruct Ht as [_ Ht].
  apply andb_true_iff in Ht. destruct Ht as [Hatt Hto].
  apply negb_true_iff in Hto.
  now apply is_pseudo_legal_piece.
Qed.

Lemma piece_moves_kings_too (st : chess.BoardState) (m : chess.Move) :
  In m (chess.piece_moves st false) -> In m (chess.piece_moves st true).
Proof.
  unfold chess.piece_moves. rewrite !in_flat_map. intros (f & Hf & Hm).
  exists f. split; [assumption|].
  destruct (chess.occupied_co (chess.placement st) (chess.turn st) f
            && negb (chess.type_on (chess.placement st) chess.PAWN f));
    [|destruct Hm].
  cbn [andb orb] in *.
  now destruct (negb (chess.type_on (chess.placement st) chess.KING f)).
Qed.

Lemma pseudo_legal_moves_kings_too (st : chess.BoardState) (m : chess.Move) :
  In m (chess.pseudo_legal_moves st false) ->
  In m (chess.pseudo_legal_moves st true).
Proof.
  unfold chess.pseudo_legal_moves. rewrite !in_app_iff. cbn [In].
  intros [Hm|[[]|Hm]]; [left; now apply piece_moves_kings_too|].
  right. right. exact Hm.
Qed.

Lemma from_chess960_from (pl : chess.Placement) (k rook : chess.Square) :
  chess.from_square (chess.from_chess960 pl k rook) = k.
Proof.
  unfold chess.from_chess960.
  destruct (k =? chess.E1) eqn:E1.
  - apply Z.eqb_eq in E1. subst k.
    destruct (chess.type_on pl chess.KING chess.E1); cbn [andb].
    + destruct (rook =? chess.H1); [reflexivity|].
      destruct (rook =? chess.A1); reflexivity.
    + destruct (chess.type_on pl chess.KING chess.E8); cbn; reflexivity.
  - cbn [andb]. destruct (k =? chess.E8) eqn:E8.
    + apply Z.eqb_eq in E8. subst k.
      destruct (chess.type_on pl chess.KING chess.E8); cbn [andb].
      * destruct (rook =? chess.H8); [reflexivity|].
        destruct (rook =? chess.A8); reflexivity.
      * reflexivity.
    + reflexivity.
Qed.

Lemma from_chess960_again (pl : chess.Placement) (k rook : chess.Square) :
  chess.from_chess960 pl k
    (chess.to_square (chess.from_chess960 pl k rook))
  = chess.from_chess960 pl k rook.
Proof.
  unfold chess.from_chess960.
  destruct ((k =? chess.E1) && chess.type_on pl chess.KING chess.E1) eqn:E1.
  - apply andb_true_iff in E1. destruct E1 as [E1 _].
    apply Z.eqb_eq in E1. subst k.
    destruct (rook =? chess.H1) eqn:EH; [reflexivity|].
    destruct (rook =? chess.A1) eqn:EA; [reflexivity|].
    cbn [chess.to_square chess.move]. now rewrite EH, EA.
  - destruct ((k =? chess.E8) && chess.type_on pl chess.KING chess.E8) eqn:E8.
    + apply andb_true_iff in E8. destruct E8 as [E8 _].
      apply Z.eqb_eq in E8. subst k.
      destruct (rook =? chess.H8) eqn:EH; [reflexivity|].
      destruct (rook =? chess.A8) eqn:EA; [reflexivity|].
      cbn [chess.to_square chess.move]. now rewrite EH, EA.
    + reflexivity.
Qed.

Lemma from_chess960_plain (pl : chess.Placement) (k rook : chess.Square) :
  chess.drop (chess.from_chess960 pl k rook) = None
  /\ chess.promotion (chess.from_chess960 pl k rook) = None
  /\ (chess.from_chess960 pl k rook = chess.null -> k = rook).
Proof.
  unfold chess.from_chess960.
  destruct ((k =? chess.E1) && chess.type_on pl chess.KING chess.E1).
  - destruct (rook =? chess.H1); [repeat split; discriminate|].
    destruct (rook =? chess.A1); [repeat split; discriminate|].
    repeat split. intros [= -> ->]. reflexivity.
  - destruct ((k =? chess.E8) && chess.type_on pl chess.KING chess.E8).
    + destruct (rook =? chess.H8); [repeat split; discriminate|].
      destruct (rook =? chess.A8); [repeat split; discriminate|].
      repeat split. intros [= -> ->]. reflexivity.
    + repeat split. intros [= -> ->]. reflexivity.
Qed.


Lemma castling_moves_inv (st : chess.BoardState) (m : chess.Move) :
  In m (chess.castling_moves st) ->
  exists k rook,
    chess.is_piece (chess.placement st) chess.KING (chess.turn st) k = true
    /\ In rook (chess.clean_castling_rights st)
    /\ m = chess.from_chess960 (chess.placement st) k rook.
Proof.
  unfold chess.castling_moves.
  destruct (find _ (rev chess.SQUARES_REVERSED)) as [k|] eqn:Ek; [|intros []].
  apply find_some in Ek. destruct Ek as [_ Ek].
  apply andb_true_iff in Ek. destruct Ek as [Hking _].
  intros Hm.
  apply in_flat_map in Hm. destruct Hm as (rook & Hrook & Hm).
  exists k, rook. split; [assumption|]. split; [assumption|].
  destruct (chess.square_rank rook =? _); [|destruct Hm].
  match type of Hm with
  | In m (if ?cond then _ else _) => destruct cond; [destruct Hm|]
  end.
  now destruct Hm as [<-|[]].
Qed.

Lemma clean_castling_rights_rook (st : chess.BoardState) (rook : chess.Square) :
  In rook (chess.clean_castling_rights st) ->
  exists c, chess.is_piece (chess.placement st) chess.ROOK c rook = true.
Proof.
  unfold chess.clean_castling_rights. rewrite filter_In.
  intros [_ Hrook].
  apply andb_true_iff in Hrook. destruct Hrook as [_ Hrook].
  apply orb_true_iff in Hrook.
  destruct Hrook as [Hr|Hr]; apply andb_true_iff in Hr; destruct Hr as [Hr _];
    apply andb_true_iff in Hr; destruct Hr as [Hr _]; eauto.
Qed.

Lemma king_is_no_castling_rook (st : chess.BoardState) (k rook : chess.Square) :
  chess.is_piece (chess.placement st) chess.KING (chess.turn st) k = true ->
  In rook (chess.clean_castling_rights st) ->
  k <> rook.
Proof.
  intros Hking Hrook E.
  destruct (clean_castling_rights_rook st rook Hrook) as (c & Hr).
  destruct (is_piece_inv _ _ _ _ Hking) as (p & Ep & Et & _).
  destruct (is_piece_inv _ _ _ _ Hr) as (q & Eq & Etq & _).
  rewrite E in Ep. rewrite Ep in Eq. injection Eq as <-. congruence.
Qed.

Lemma castling_moves_pseudo (st : chess.BoardState) (m : chess.Move) :
  In m (chess.castling_moves st) -> chess.is_pseudo_legal st m = true.
Proof.
  intros Hin.
  destruct (castling_moves_inv st m Hin) as (k & rook & Hking & Hrook & Em).
  pose proof (king_is_no_castling_rook st k rook Hking Hrook) as Hne.
  destruct (from_chess960_plain (chess.placement st) k rook)
    as (Hdrop & Hprom & Hnull).
  apply is_pseudo_legal_castling.
  - destruct (chess.Move_eqb m chess.null) eqn:E; [|reflexivity].
    apply Move_eqb_eq in E. subst m. now apply Hnull in E.
  - now subst m.
  - now subst m.
  - subst m. now rewrite from_chess960_from.
  - subst m. rewrite from_chess960_from, from_chess960_again.
    exact Hin.
Qed.

Lemma pawn_captures_inv (st : chess.BoardState) (m : chess.Move) :
  In m (chess.pawn_captures st) ->
  chess.drop m = None
  /\ chess.is_piece (chess.placement st) chess.PAWN (chess.turn st)
                    (chess.from_square m) = true
  /\ chess.occupied_co (chess.placement st) (chess.turn st) (chess.to_square m)
     = false
  /\ (chess.promotion m <> None ->
      chess.square_rank (chess.to_square m) = (if chess.turn st then 7 else 0)).
Proof.
  unfold chess.pawn_captures. rewrite in_flat_map. intros (f & _ & Hm).
  destruct (chess.is_piece (chess.placement st) chess.PAWN (chess.turn st) f)
    eqn:Hpawn; [|destruct Hm].
  apply in_flat_map in Hm. destruct Hm as (t & Ht & Hm).
  apply filter_In in Ht. destruct Ht as [_ Ht].
  apply andb_true_iff in Ht. destruct Ht as [Hatt Hopp].
  destruct (promotions_or_plain_inv f t m Hm) as (-> & -> & Hdrop & Hprom).
  repeat split; try assumption.
  - now apply other_side_not_own.
  - intros Hp. specialize (Hprom Hp).
    destruct (is_piece_inv _ _ _ _ Hpawn) as (p & Ep & _).
    pose proof (piece_on_range _ _ _ Ep) as Hf.
    pose proof (rank_of_pawn_attack (chess.turn st) _ _ Hf (mem_In _ _ Hatt)) as Hr.
    destruct (square_rank_bounds _ Hf) as [Ef Bf]. rewrite Ef in Hr.
    destruct (chess.turn st); lia.
Qed.

Lemma square_rank_div (sq : chess.Square) : chess.square_rank sq = sq / 8.
Proof. unfold chess.square_rank. now rewrite Z.shiftr_div_pow2 by lia. Qed.

Lemma single_moves_In (st : chess.BoardState) (t : chess.Square) :
  In t (chess.single_moves st) ->
  chess.is_piece (chess.placement st) chess.PAWN (chess.turn st)
                 (t - chess.forward (chess.turn st)) = true
  /\ chess.occupied (chess.placement st) t = false.
Proof.
  unfold chess.single_moves. rewrite filter_In. intros [_ Ht].
  apply andb_true_iff in Ht. destruct Ht as [Hpawn Hfree].
  apply negb_true_iff in Hfree. now split.
Qed.

Lemma single_moves_inv (st : chess.BoardState) (m : chess.Move) :
  In m (flat_map (fun t => chess.promotions_or_plain
                             (t - chess.forward (chess.turn st)) t)
                 (chess.single_moves st)) ->
  chess.drop m = None
  /\ chess.is_piece (chess.placement st) chess.PAWN (chess.turn st)
                    (chess.from_square m) = true
  /\ chess.occupied_co (chess.placement st) (chess.turn st) (chess.to_square m)
     = false
  /\ (chess.promotion m <> None ->
      chess.square_rank (chess.to_square m) = (if chess.turn st then 7 else 0)).
Proof.
  rewrite in_flat_map. intros (t & Ht & Hm).
  destruct (single_moves_In st t Ht) as [Hpawn Hfree].
  destruct (promotions_or_plain_inv _ t m Hm) as (-> & -> & Hdrop & Hprom).
  repeat split; try assumption.
  - now apply not_occupied_co.
  - intros Hp. specialize (Hprom Hp).
    destruct (is_piece_inv _ _ _ _ Hpawn) as (p & Ep & _).
    pose proof (piece_on_range _ _ _ Ep) as Hf.
    rewrite square_rank_div in *.
    unfold chess.forward in Hf.
    destruct (chess.turn st).
    + destruct Hprom as [E0|E7]; [|assumption].
      assert (1 <= t / 8) by (apply Z.div_le_lower_bound; lia). lia.
    + destruct Hprom as [E0|E7]; [assumption|].
      assert (t / 8 < 7) by (apply Z.div_lt_upper_bound; lia). lia.
Qed.

Lemma double_moves_inv (st : chess.BoardState) (t : chess.Square) :
  In t (chess.double_moves st) ->
  chess.is_piece (chess.placement st) chess.PAWN (chess.turn st)
                 (t - 2 * chess.forward (chess.turn st)) = true
  /\ chess.occupied_co (chess.placement st) (chess.turn st) t = false.
Proof.
  unfold chess.double_moves. rewrite filter_In. intros [_ Ht].
  apply andb_true_iff in Ht. destruct Ht as [Ht _].
  apply andb_true_iff in Ht. destruct Ht as [Hsingle Hfree].
  apply negb_true_iff in Hfree. apply mem_In in Hsingle.
  destruct (single_moves_In st _ Hsingle) as [Hpawn _].
  split; [|now apply not_occupied_co].
  replace (t - 2 * chess.forward (chess.turn st))
    with (t - chess.forward (chess.turn st) - chess.forward (chess.turn st))
    by lia.
  exact Hpawn.
Qed.

Lemma pseudo_legal_ep_inv (st : chess.BoardState) (m : chess.Move) :
  In m (chess.pseudo_legal_ep st) ->
  chess.drop m = None /\ chess.promotion m = None
  /\ chess.is_piece (chess.placement st) chess.PAWN (chess.turn st)
                    (chess.from_square m) = true
  /\ chess.occupied_co (chess.placement st) (chess.turn st) (chess.to_square m)
     = false.
Proof.
  unfold chess.pseudo_legal_ep.
  destruct (chess.ep_square st) as [ep|]; [|intros []].
  destruct (chess.occupied (chess.placement st) ep) eqn:Hfree; [intros []|].
  rewrite in_map_iff. intros (f & <- & Hf).
  apply filter_In in Hf. destruct Hf as [_ Hf].
  apply andb_true_iff in Hf. destruct Hf as [Hf _].
  apply andb_true_iff in Hf. destruct Hf as [Hpawn _].
  cbn. repeat split; try assumption. now apply not_occupied_co.
Qed.

Lemma pseudo_legal_moves_pseudo (st : chess.BoardState) (m : chess.Move) :
  In m (chess.pseudo_legal_moves st true) -> chess.is_pseudo_legal st m = true.
Proof.
  intros Hin. pose proof Hin as Hm.
  unfold chess.pseudo_legal_moves in Hm. rewrite !in_app_iff in Hm.
  destruct Hm as [Hm|[Hm|[Hm|[Hm|[Hm|Hm]]]]].
  - now apply piece_moves_pseudo in Hm.
  - now apply castling_moves_pseudo.
  - destruct (pawn_captures_inv st m Hm) as (Hdrop & Hpawn & Hto & Hprom).
    now apply is_pseudo_legal_pawn.
  - destruct (single_moves_inv st m Hm) as (Hdrop & Hpawn & Hto & Hprom).
    now apply is_pseudo_legal_pawn.
  - apply in_map_iff in Hm. destruct Hm as (t & <- & Ht).
    destruct (double_moves_inv st t Ht) as (Hpawn & Hto).
    apply is_pseudo_legal_pawn; try assumption; try reflexivity.
    cbn. congruence.
  - destruct (pseudo_legal_ep_inv st m Hm) as (Hdrop & Hprom & Hpawn & Hto).
    apply is_pseudo_legal_pawn; try assumption. congruence.
Qed.

Lemma king_evasions_pseudo (st : chess.BoardState) (k : chess.Square)
    (m : chess.Move) :
  chess.king (chess.placement st) (chess.turn st) = Some k ->
  In m (chess.king_evasions st k) ->
  chess.is_pseudo_legal st m = true.
Proof.
  intros Hk. unfold chess.king_evasions. rewrite in_map_iff.
  intros (t & <- & Ht). apply filter_In in Ht. destruct Ht as [_ Ht].
  apply andb_true_iff in Ht. destruct Ht as [Hatt Hto].
  apply negb_true_iff in Hto.
  unfold chess.king in Hk. apply find_some in Hk. destruct Hk as [_ Hking].
  destruct (is_piece_inv _ _ _ _ Hking) as (p & Ep & Et & Ec).
  apply is_pseudo_legal_piece; try assumption.
  - rewrite <- Ec. now apply occupied_co_of_piece.
  - unfold chess.type_on. rewrite Ep, Et. reflexivity.
  - unfold chess.attacks. rewrite Ep, Et. exact Hatt.
Qed.

(** Every move that the model enumerates as legal is accepted by the
    model's membership test. *)
Lemma chess_accepts_enumerated : accepts_enumerated chess.Board.
Proof.
  intros b m. cbn. unfold chess.legal_moves, chess.is_legal.
  unfold chess.generate_legal_moves, chess.is_into_check.
  destruct (chess.king (chess.placement (chess.state b))
                       (chess.turn (chess.state b))) as [k|] eqn:Ek.
  - destruct (chess.is_attacked_by _ _ k).
    + rewrite filter_In, in_app_iff. intros [[Hm|Hm] Hsafe].
      * rewrite (king_evasions_pseudo _ k m Ek Hm), Hsafe. reflexivity.
      * apply pseudo_legal_moves_kings_too in Hm.
        rewrite (pseudo_legal_moves_pseudo _ m Hm), Hsafe. reflexivity.
    + rewrite filter_In. intros [Hm Hsafe].
      rewrite (pseudo_legal_moves_pseudo _ m Hm), Hsafe. reflexivity.
  - intros Hm. now rewrite (pseudo_legal_moves_pseudo _ m Hm).
Qed.

Lemma chess_accepts_no_null_no_drop : accepts_no_null_no_drop chess.Board.
Proof.
  intros b m. cbn. unfold chess.is_legal, chess.is_pseudo_legal.
  destruct (chess.Move_eqb m chess.null) eqn:Enull; [discriminate|].
  destruct (chess.drop m); [discriminate|].
  intros _. split; [|reflexivity].
  intros ->. now rewrite (proj2 (Move_eqb_eq _ _) eq_refl) in Enull.
Qed.

(** * Move notation, there and back *)

Lemma str_app (s t : string) :
  chess.str (s ++ t) = chess.str s ++ chess.str t.
Proof.
  unfold chess.str. induction s as [|c s IH]; [reflexivity|].
  cbn [String.append list_ascii_of_string map app]. now f_equal.
Qed.

Lemma square_name_checked :
  forallb
    (fun sq =>
       match chess.str (chess.square_name sq) with
       | [f; r] =>
           match chess.square_names_index f r with
           | Some sq' => sq' =? sq
           | None => false
           end
           && negb (is_char f "0") && negb (is_char r "@")
       | _ => false
       end)
    (map Z.of_nat (seq 0 64)) = true.
Proof. vm_compute. reflexivity. Qed.

Lemma square_name_parses (sq : chess.Square) :
  0 <= sq < 64 ->
  exists f r,
    chess.str (chess.square_name sq) = [f; r]
    /\ chess.square_names_index f r = Some sq
    /\ is_char f "0" = false
    /\ is_char r "@" = false.
Proof.
  intros Hsq.
  pose proof square_name_checked as Hall.
  rewrite forallb_forall in Hall. specialize (Hall sq).
  lapply Hall.
  - clear Hall.
    destruct (chess.str (chess.square_name sq)) as [|f [|r [|x s]]] eqn:Ename;
      try discriminate.
    destruct (chess.square_names_index f r) as [sq'|] eqn:Eidx; [|discriminate].
    intros Hok. apply andb_true_iff in Hok. destruct Hok as [Hok Hr].
    apply andb_true_iff in Hok. destruct Hok as [Hsq' Hf].
    apply Z.eqb_eq in Hsq'. subst sq'.
    apply negb_true_iff in Hf, Hr.
    exists f, r. repeat split; assumption.
  - replace sq with (Z.of_nat (Z.to_nat sq)) by lia.
    apply in_map, in_seq. lia.
Qed.

Lemma PIECE_SYMBOLS_index_symbol (p : chess.PieceType) :
  chess.PIECE_SYMBOLS_index (chess.ord (chess.piece_symbol p)) = Some p.
Proof. now destruct p. Qed.

Lemma ordinary_move_inv (m : chess.Move) :
  ordinary_move m = true ->
  0 <= chess.from_square m < 64 /\ 0 <= chess.to_square m < 64
  /\ chess.from_square m <> chess.to_square m /\ chess.drop m = None.
Proof.
  unfold ordinary_move. rewrite !andb_true_iff, negb_true_iff.
  rewrite !Z.leb_le, !Z.ltb_lt, Z.eqb_neq.
  intros [[[[[? ?] ?] ?] ?] Hdrop].
  destruct (chess.drop m); [discriminate|]. repeat split; auto.
Qed.

(** [Move.uci] writes an ordinary move as its origin square followed by
    [destination_part]. *)
Lemma uci_split (m : chess.Move) :
  ordinary_move m = true ->
  chess.uci m = (chess.square_name (chess.from_square m) ++ destination_part m)%string.
Proof.
  intros Hm. apply ordinary_move_inv in Hm.
  destruct Hm as (Hf & Ht & Hne & Hdrop).
  unfold chess.uci, destination_part. rewrite Hdrop.
  destruct (chess.promotion m); [reflexivity|].
  destruct (chess.from_square m =? 0) eqn:E0; [|reflexivity].
  destruct (chess.to_square m =? 0) eqn:E1; [|reflexivity].
  apply Z.eqb_eq in E0, E1. congruence.
Qed.

(** [Move.from_uci] reads back what [Move.uci] writes. *)
Lemma from_uci_uci (m : chess.Move) :
  ordinary_move m = true -> chess.from_uci (chess.str (chess.uci m)) = Ok m.
Proof.
  intros Hm. rewrite (uci_split m Hm). apply ordinary_move_inv in Hm.
  destruct Hm as (Hf & Ht & Hne & Hdrop).
  destruct m as [f t p d].
  cbn [chess.from_square chess.to_square chess.promotion chess.drop] in *.
  subst d.
  destruct (square_name_parses f Hf) as (f1 & r1 & Ef & Pf & Hf1 & Hr1).
  destruct (square_name_parses t Ht) as (f2 & r2 & Et & Pt & _ & _).
  unfold destination_part. cbn [chess.promotion chess.to_square].
  apply Z.eqb_neq in Hne. unfold is_char in Hf1, Hr1.
  destruct p as [p|]; rewrite !str_app, Ef, Et; unfold chess.from_uci;
    cbn [chess.str list_ascii_of_string map app chess.pystr_eqb List.length
         nth_error Nat.eqb Nat.leb andb option_map];
    change (chess.ord "0") with 48%N; change 48%N with (chess.ord "0");
    rewrite Hf1, ?Hr1, Pf, Pt, ?PIECE_SYMBOLS_index_symbol;
    cbn [andb option_map]; rewrite Hne; reflexivity.
Qed.

Lemma substring_split (n : nat) (s : string) :
  (n <= String.length s)%nat ->
  (substring 0 n s ++ substring n (String.length s - n) s)%string = s.
Proof.
  revert s. induction n as [|n IH]; intros s Hn.
  - cbn [substring]. rewrite Nat.sub_0_r.
    destruct s as [|c s]; [reflexivity|].
    cbn [String.length substring String.append].
    f_equal. clear. induction s as [|c' s IHs]; [reflexivity|].
    cbn [String.length substring]. now rewrite IHs.
  - destruct s as [|c s]; [cbn in Hn; lia|].
    cbn [String.length] in *. cbn [substring String.append Nat.sub].
    f_equal. apply IH. lia.
Qed.

(** * The probe *)

Section Probe.

Context {Board : Type} `{Position Board} `{LegalMoveTest Board}.

(** C9, as the code has it: when the concatenation of the two strings is
    well-formed move notation, [check_move_is_legal] returns a boolean,
    the answer of the board's membership test [move in board.legal_moves]
    for the move that the notation denotes; when it is not well formed,
    the [InvalidMoveError] of [Move.from_uci] leaves the probe.  The board
    is unchanged. *)
Theorem check_move_is_legal_on_notation (b : Board)
    (origin destination : chess.pystr) :
  if well_formed_uci (origin ++ destination)
  then exists m : chess.Move,
      chess.from_uci (origin ++ destination) = Ok m
      /\ check_move_is_legal origin destination b = (b, Ok (is_legal b m))
  else check_move_is_legal origin destination b = (b, Raise InvalidMoveError).
Proof.
  pose proof (from_uci_accepts_well_formed (origin ++ destination)) as Hparse.
  unfold check_move_is_legal.
  destruct (well_formed_uci (origin ++ destination)).
  - destruct Hparse as [m Hm]. exists m. split; [assumption|].
    now rewrite Hm.
  - now rewrite Hparse.
Qed.

(** X9: the probe returns [True], and leaves the board as it was, for
    every move of the enumeration of legal moves that goes between two
    different squares of the board, when the move is written in the
    notation of [Move.uci] and cut after the origin square; the library's
    membership test accepts the moves it enumerates. *)
Theorem probe_accepts_every_legal_move :
  accepts_enumerated Board ->
  forall (b : Board) (m : chess.Move),
    In m (legal_moves b) ->
    ordinary_move m = true ->
    check_move_is_legal (chess.str (chess.square_name (chess.from_square m)))
                        (chess.str (destination_part m)) b
    = (b, Ok true).
Proof.
  intros Haccept b m Hin Hm. unfold check_move_is_legal.
  rewrite <- str_app, <- (uci_split m Hm), (from_uci_uci m Hm).
  now rewrite (Haccept b m Hin).
Qed.

(** X10: what [next_move] returns on a live position, cut after its
    first two characters, is accepted by [check_move_is_legal] on the same
    board, provided the legal moves of the board go between two different
    squares of the board. *)
Theorem next_move_passes_own_probe :
  undo_exact Board ->
  no_moves_is_game_over Board ->
  accepts_enumerated Board ->
  forall b : Board,
    is_game_over b = false ->
    (forall m, In m (legal_moves b) -> ordinary_move m = true) ->
    exists s : string,
      next_move b = (b, Ok s)
      /\ check_move_is_legal
           (chess.str (substring 0 2 s))
           (chess.str (substring 2 (String.length s - 2) s)) b
         = (b, Ok true).
Proof.
  intros Hundo Hmoves Haccept b Hover Hord.
  destruct (minimax_returns Hundo Hmoves 4 Score.NegInf Score.PosInf true b
              eq_refl) as (mv & z & E & Hmv).
  destruct Hmv as (m & -> & Hin); [discriminate|assumption|].
  exists (chess.uci m). split.
  - unfold next_move, bind. now rewrite E.
  - pose proof (Hord m Hin) as Hm.
    unfold check_move_is_legal. rewrite <- str_app, substring_split.
    + now rewrite (from_uci_uci m Hm), (Haccept b m Hin).
    + rewrite (uci_split m Hm).
      destruct (chess.square_name (chess.from_square m)) as [|c1 [|c2 s]] eqn:En;
        try (cbn; lia); discriminate En.
Qed.

(** X11: the probe answers [False], without raising, to the null move
    0000 and to every pair of strings that [Move.from_uci] reads as a
    drop; the library's membership test accepts neither. *)
Theorem probe_rejects_null_and_drops :
  accepts_no_null_no_drop Board ->
  forall b : Board,
    check_move_is_legal (chess.str "00") (chess.str "00") b = (b, Ok false)
    /\ forall (origin destination : chess.pystr) (m : chess.Move),
        chess.from_uci (origin ++ destination) = Ok m ->
        chess.drop m <> None ->
        check_move_is_legal origin destination b = (b, Ok false).
Proof.
  intros Hplain b.
  assert (Hout : forall m, m = chess.null \/ chess.drop m <> None ->
                           is_legal b m = false).
  { intros m Hm. destruct (is_legal b m) eqn:E; [|reflexivity].
    destruct (Hplain b m E) as [Hnull Hdrop]. destruct Hm; congruence. }
  split.
  - assert (Enull : chess.from_uci (chess.str "00" ++ chess.str "00")
                    = Ok chess.null) by reflexivity.
    unfold check_move_is_legal. rewrite Enull.
    now rewrite (Hout chess.null (or_introl eq_refl)).
  - intros origin destination m Eparse Hdrop.
    unfold check_move_is_legal. rewrite Eparse.
    now rewrite (Hout m (or_intror Hdrop)).
Qed.

End Probe.

(** * The probe at concrete positions *)

Lemma starting_moves_ordinary :
  forall m, In m (legal_moves chess.starting_board) -> ordinary_move m = true.
Proof.
  assert (Hall : forallb ordinary_move (legal_moves chess.starting_board) = true)
    by (vm_compute; reflexivity).
  intros m Hm. exact (proj1 (forallb_forall _ _) Hall m Hm).
Qed.

(** C9 fails as stated: the probe raises on e2 and e9, since e9 names no
    square. *)
Lemma probe_raises_counterexample : ~ probe_never_raises chess.starting_board.
Proof.
  intros Hprobe.
  destruct (Hprobe (chess.str "e2") (chess.str "e9")) as [v Hv].
  vm_compute in Hv. discriminate Hv.
Qed.

(** The membership test also accepts castling written as the king
    taking its own rook, which the enumeration lists as e1g1 and e1c1. *)
Lemma probe_accepts_castling_either_way :
  check_move_is_legal (chess.str "e1") (chess.str "h1") castling_ready
  = (castling_ready, Ok true)
  /\ check_move_is_legal (chess.str "e1") (chess.str "g1") castling_ready
     = (castling_ready, Ok true)
  /\ existsb (chess.Move_eqb (chess.move chess.E1 chess.H1))
             (legal_moves castling_ready) = false
  /\ existsb (chess.Move_eqb (chess.move chess.E1 chess.G1))
             (legal_moves castling_ready) = true.
Proof.
  split; [vm_compute; reflexivity|].
  split; [vm_compute; reflexivity|].
  split; vm_compute; reflexivity.
Qed.

(** X9 at the starting position, for the move g1h3. *)
Lemma probe_accepts_every_legal_move_witness :
  check_move_is_legal (chess.str "g1") (chess.str "h3") chess.starting_board
  = (chess.starting_board, Ok true).
Proof.
  apply (probe_accepts_every_legal_move chess_accepts_enumerated
           chess.starting_board (chess.move chess.G1 23)).
  - vm_compute. left. reflexivity.
  - reflexivity.
Defined.

(** X10 at the starting position. *)
Lemma next_move_passes_own_probe_witness :
  exists s : string,
    next_move chess.starting_board = (chess.starting_board, Ok s)
    /\ check_move_is_legal
         (chess.str (substring 0 2 s))
         (chess.str (substring 2 (String.length s - 2) s))
         chess.starting_board
       = (chess.starting_board, Ok true).
Proof.
  apply (next_move_passes_own_probe chess_undo_exact
           chess_no_moves_is_game_over chess_accepts_enumerated
           chess.starting_board).
  - vm_compute. reflexivity.
  - exact starting_moves_ordinary.
Defined.

(** X11 at the starting position. *)
Lemma probe_rejects_null_and_drops_witness :
  check_move_is_legal (chess.str "00") (chess.str "00") chess.starting_board
  = (chess.starting_board, Ok false)
  /\ check_move_is_legal (chess.str "P@") (chess.str "e4") chess.starting_board
     = (chess.starting_board, Ok false).
Proof.
  destruct (probe_rejects_null_and_drops chess_accepts_no_null_no_drop
              chess.starting_board) as [Hnull Hdrop].
  split; [exact Hnull|].
  apply (Hdrop (chess.str "P@") (chess.str "e4")
               (chess.mkMove 28 28 None (Some chess.PAWN))).
  - reflexivity.
  - discriminate.
Defined.
